(** * gender-bias: the publication and effort detectors

    A shallow embedding of [genderbias/publications/__init__.py] and
    [genderbias/effort/__init__.py].

    Conventions.
    - A Python [str] is a [string]; its characters are [ascii].
    - A Python [float] is a canonical rational [Qc].  The floats the
      detectors compute with are the bias constants, their halves and
      multiples of 0.25, all of which binary floating point represents
      exactly, so rational arithmetic and float arithmetic agree on them.
    - A Python [int] offset is a [Z]; a counter that starts at 0 and is
      only incremented is a [nat].
    - A [dict] is a [gmap], a [set] is a [gset].
    - [str.lower], [re] and the parser are not code of the repository:
      [str.lower] and the parser are parameters, the regular expression
      of the code has a small matcher of its own. *)

From stdpp Require Import gmap strings list sorting.
From Stdlib Require Import Ascii DecimalString QArith Qcanon Qround.

Local Open Scope string_scope.
#[local] Set Warnings "-clear-no-such-hyp".

(** ** Characters and strings *)

(** The double quote character, code point 34. *)
Definition dquote : ascii := Ascii.ascii_of_nat 34.

Definition is_dquote (c : ascii) : bool := bool_decide (c = dquote).

(** [quoted s] is [s] between two double quote characters. *)
Definition quoted (s : string) : string :=
  String dquote (s +:+ String dquote EmptyString).

(** [break_dquote s] splits [s] in front of its first double quote: the
    longest prefix free of double quotes, and what follows it. *)
Fixpoint break_dquote (s : string) : string * string :=
  match s with
  | EmptyString => (EmptyString, EmptyString)
  | String c s' =>
      if is_dquote c then (EmptyString, s)
      else (String c (break_dquote s').1, (break_dquote s').2)
  end.

(** ** A backtracking matcher for the regular expressions the code uses

    [re.compile] and [re.findall] belong to Python's standard library.
    The fragment below covers patterns that are a sequence of single
    characters and character classes, each optionally under a greedy [+];
    every item consumes at least one character. *)

Module Re.

Inductive atom : Type :=
| Lit (c : ascii)              (* the character c *)
| NotIn (cs : list ascii).     (* the class [^cs] *)

Inductive item : Type :=
| One (a : atom)               (* a *)
| Plus (a : atom).             (* a+ , greedy *)

Definition pattern := list item.

Definition accepts (a : atom) (c : ascii) : bool :=
  match a with
  | Lit d => bool_decide (c = d)
  | NotIn cs => bool_decide (c ∉ cs)
  end.

Definition consume (c : ascii) (r : string * string) : string * string :=
  (String c r.1, r.2).

(** [match_here p s] anchors [p] at the start of [s]; it returns the
    matched prefix and the remaining text.  A [+] first tries to take one
    more character and falls back to the rest of the pattern. *)
Fixpoint match_here (p : pattern) : string -> option (string * string) :=
  match p with
  | [] => fun s => Some (EmptyString, s)
  | One a :: p' => fun s =>
      match s with
      | String c s' =>
          if accepts a c then consume c <$> match_here p' s' else None
      | EmptyString => None
      end
  | Plus a :: p' =>
      fix plus (s : string) : option (string * string) :=
        match s with
        | String c s' =>
            if accepts a c then
              match plus s' with
              | Some r => Some (consume c r)
              | None => consume c <$> match_here p' s'
              end
            else None
        | EmptyString => None
        end
  end.

(** [re.findall]: scan left to right, collect the non-overlapping
    matches; after a match the scan resumes behind it, after a failure
    one character further. *)
Fixpoint findall_fuel (fuel : nat) (p : pattern) (s : string) : list string :=
  match fuel with
  | O => []
  | S fuel' =>
      match s with
      | EmptyString => []
      | String _ s' =>
          match match_here p s with
          | Some (m, rest) => m :: findall_fuel fuel' p rest
          | None => findall_fuel fuel' p s'
          end
      end
  end.

Definition findall (p : pattern) (s : string) : list string :=
  findall_fuel (String.length s) p s.

End Re.

(** ** Document (genderbias.document)

    Modelled from the spec: the Document class is not part of the sources
    at hand.  It wraps the raw text and exposes the segmentation into
    (word, start, stop) triples, which the external tokenizer computes. *)
Record Document : Type := mkDocument {
  text : string;
  words_with_indices : list (string * Z * Z)
}.

(** ** Report, Flag and Issue (genderbias.detector)

    Modelled from the spec: the detector module is not part of the sources
    at hand.  An Issue has a category name, an explanation, an optional fix
    suggestion (empty when absent) and a signed bias score; a Flag is an
    Issue at a character span; a Report has a category label, a collection
    of flags and a summary.  The constructor of Issue takes the name, the
    explanation and the fix suggestion in this order, and the bias by
    keyword; a new Report has no flag and an empty summary. *)
Record Issue : Type := mkIssue {
  issue_name : string;
  description : string;
  fix_ : string;
  bias : Qc
}.

Record Flag : Type := mkFlag {
  start : Z;
  stop : Z;
  issue : Issue
}.

Record Report : Type := mkReport {
  name : string;
  flags : list Flag;
  summary : string
}.

Definition new_Report (n : string) : Report :=
  {| name := n; flags := []; summary := EmptyString |}.

Definition add_flag (r : Report) (f : Flag) : Report :=
  {| name := name r; flags := flags r ++ [f]; summary := summary r |}.

Definition set_summary (r : Report) (s : string) : Report :=
  {| name := name r; flags := flags r; summary := s |}.

(** ** Publications (genderbias/publications/__init__.py) *)

Module Publications.

(** The compiled pattern of [identify_publications]: a double quote, one
    or more characters that are not a double quote, a double quote. *)
Definition rxp : Re.pattern :=
  [Re.One (Re.Lit dquote); Re.Plus (Re.NotIn [dquote]); Re.One (Re.Lit dquote)].

(** The pattern behind the opening quote. *)
Definition closing : Re.pattern :=
  [Re.Plus (Re.NotIn [dquote]); Re.One (Re.Lit dquote)].

Definition quarter : Qc := Q2Qc (1 # 4).
Definition half : Qc := Q2Qc (1 # 2).

(** The effect of one iteration on the entry of the match. *)
Definition bump (o : option Qc) : option Qc :=
  Some (default 0%Qc o + quarter)%Qc.

(** One iteration of the loop of [identify_publications]:
    [if match not in pp: pp[match] = 0.0] and then [pp[match] += 0.25]. *)
Definition record_match (pp : gmap string Qc) (m : string) : gmap string Qc :=
  let pp1 := match pp !! m with
             | None => <[m := 0%Qc]> pp
             | Some _ => pp
             end in
  alter (fun w => (w + quarter)%Qc) m pp1.

Definition identify_publications (doc : Document) : gmap string Qc :=
  foldl record_match ∅ (Re.findall rxp (text doc)).

(** What a constructor call can raise. *)
Inductive exn : Type :=
| ConfigurationError.

Record PublicationDetector : Type := mkPublicationDetector {
  min_publications : Qc
}.

(** [PublicationDetector.__init__]: the keyword arguments are a
    dictionary; the only statement that reads them is
    [kwargs.get(min_publications, 0.5)].  No statement of the constructor
    raises. *)
Definition __init__ (kwargs : gmap string Qc) : exn + PublicationDetector :=
  inr {| min_publications := default half (kwargs !! "min_publications") |}.

(** [sum(d.values())] *)
Definition sum_values (d : gmap string Qc) : Qc :=
  foldr Qcplus 0%Qc (snd <$> map_to_list d).

(** [math.ceil] of a float, an [int]. *)
Definition ceil (x : Qc) : Z := Qceiling (this x).

(** The format [{:n}] of an [int] in the default locale: its decimal
    digits. *)
Definition format_n (z : Z) : string := NilZero.string_of_int (Z.to_int z).

Definition not_enough : string :=
  "This document does not mention many publications. "
  +:+ "Try referencing more concrete publications or work "
  +:+ "byproducts, if possible.".

Definition at_least (k : Z) : string :=
  "The text appears to mention at least " +:+ format_n k +:+ " publications.".

Definition at_least_one : string :=
  "The text appears to mention at least one publication.".

(** [PublicationDetector.get_summary]; the [print] of the second branch
    writes to the standard output and does not change the result. *)
Definition get_summary (self : PublicationDetector) (doc : Document) : string :=
  let pub_count := sum_values (identify_publications doc) in
  if decide (pub_count < min_publications self)%Qc then not_enough
  else if decide (1 < min_publications self)%Qc then
    at_least (ceil (min_publications self))
  else at_least_one.

(** [PublicationDetector.get_report] *)
Definition get_report (self : PublicationDetector) (doc : Document) : Report :=
  let report := new_Report "Publications" in
  let report := set_summary report (get_summary self doc) in
  report.

End Publications.

(** ** The parser's output (spaCy's Doc and Token)

    The parser is an external capability.  Its result is a sequence of
    tokens; a token carries its surface text, its part of speech, its
    dependency label, the position of its syntactic head in the sequence
    and the character span of the sentence it belongs to.  The root of a
    sentence is its own head. *)

Module Spacy.

Record Span : Type := mkSpan {
  start_char : Z;
  end_char : Z
}.

Record Token : Type := mkToken {
  text : string;
  pos_ : string;
  dep_ : string;
  head : nat;
  sent : Span
}.

#[global] Instance Span_eq_dec : EqDecision Span.
Proof. solve_decision. Defined.

#[global] Instance Token_eq_dec : EqDecision Token.
Proof. solve_decision. Defined.

Definition Doc := list Token.

(** [doc[h].children]: the tokens whose head is token [h], in document
    order; a root is not its own child. *)
Definition children (doc : Doc) (h : nat) : list Token :=
  snd <$> filter (fun it : nat * Token => head it.2 = h ∧ it.1 ≠ h) (imap pair doc).


End Spacy.

(** ** Effort vs accomplishment (genderbias/effort/__init__.py) *)

Module Effort.

(** An f-string field holding an [int]. *)
Definition format_int (n : nat) : string := NilZero.string_of_uint (Nat.to_uint n).

Definition _PRONOUNS_TO_IGNORE : list string := ["me"; "myself"; "I"].

(** The tuples collected in the set [flags]:
    (start, stop, warning, suggestion, bias). *)
Definition flag_tuple : Type := Z * Z * string * string * Qc.

Definition category : string := "Effort vs Accomplishment".

Section Detector.

(** The parser [nlp], the two word lists, which are read from files at
    import time, and the two constants of the Issue class. *)
Variable nlp : string -> Spacy.Doc.
Variables ACCOMPLISHMENT_WORDS EFFORT_WORDS : list string.
Variables positive_result negative_result : Qc.

(** [str.lower], the method of Python's strings: it lowercases by the
    Unicode case mapping.  It belongs to the language, not to the
    repository, and nothing below depends on what it computes. *)
Variable lower : string -> string.

Definition lexical_effort_flag (word : string) (start stop : Z) : Flag :=
  mkFlag start stop
    (mkIssue category
       ("The word '" +:+ word +:+ "' tends to speak more about "
        +:+ "effort than concrete accomplishment.")
       ("Speak about concrete achievement rather "
        +:+ "than abstract effort.")
       (negative_result * Publications.half)%Qc).

Definition lexical_accomplishment_flag (word : string) (start stop : Z) : Flag :=
  mkFlag start stop
    (mkIssue category
       ("The word '" +:+ word +:+ "' illustrates concrete accomplishment.")
       EmptyString
       (positive_result * Publications.half)%Qc).

(** The body of the first loop, over [doc.words_with_indices()]. *)
Definition lexical_step (report : Report) (w : string * Z * Z) : Report :=
  let '(word, start, stop) := w in
  let report :=
    if decide (lower word ∈ EFFORT_WORDS)
    then add_flag report (lexical_effort_flag word start stop)
    else report in
  let report :=
    if decide (lower word ∈ ACCOMPLISHMENT_WORDS)
    then add_flag report (lexical_accomplishment_flag word start stop)
    else report in
  report.

Definition accomplishment_warning (token : Spacy.Token) : string :=
  "The word '" +:+ Spacy.text token +:+ "' refers to "
  +:+ "explicit accomplishment rather than effort.".

Definition effort_warning (token : Spacy.Token) : string :=
  "The word '" +:+ Spacy.text token +:+ "' tends to speak "
  +:+ "about effort more than accomplishment.".

Definition effort_suggestion : string :=
  "Try replacing with phrasing that " +:+ "emphasizes accomplishment.".

Definition accomplishment_tuple (token : Spacy.Token) : flag_tuple :=
  (Spacy.start_char (Spacy.sent token), Spacy.end_char (Spacy.sent token),
   accomplishment_warning token, EmptyString, positive_result).

Definition effort_tuple (token : Spacy.Token) : flag_tuple :=
  (Spacy.start_char (Spacy.sent token), Spacy.end_char (Spacy.sent token),
   effort_warning token, effort_suggestion, negative_result).

(** The condition on [reference_token]. *)
Definition is_reference (reference_token : Spacy.Token) : Prop :=
  Spacy.pos_ reference_token ∈ ["PRON"; "PROPN"]
  ∧ Spacy.text reference_token ∉ _PRONOUNS_TO_IGNORE.

(** The state of the second loop: the two counters and the set. *)
Definition tally : Type := nat * nat * gset flag_tuple.

(** The body of the inner loop, over [token.head.children]. *)
Definition visit_reference (token : Spacy.Token) (st : tally)
    (reference_token : Spacy.Token) : tally :=
  let '(accomplishment_words, effort_words, flags) := st in
  if decide (is_reference reference_token) then
    if decide (Spacy.text token ∈ ACCOMPLISHMENT_WORDS) then
      (S accomplishment_words, effort_words,
       {[accomplishment_tuple token]} ∪ flags)
    else if decide (Spacy.text token ∈ EFFORT_WORDS) then
      (accomplishment_words, S effort_words,
       {[effort_tuple token]} ∪ flags)
    else st
  else st.

(** The body of the outer loop, over the tokens of the parsed text. *)
Definition visit_token (doc : Spacy.Doc) (st : tally) (token : Spacy.Token) : tally :=
  if decide (Spacy.dep_ token = "acomp") then
    foldl (visit_reference token) st (Spacy.children doc (Spacy.head token))
  else st.

Definition syntactic_pass (doc : Spacy.Doc) : tally :=
  foldl (visit_token doc) (0%nat, 0%nat, ∅) doc.

(** The body of the third loop, over the set [flags]. *)
Definition flag_of_tuple (t : flag_tuple) : Flag :=
  let '(start, stop, warning, suggestion, bias) := t in
  mkFlag start stop (mkIssue category warning suggestion bias).

Definition report_tuple (report : Report) (t : flag_tuple) : Report :=
  add_flag report (flag_of_tuple t).

Definition ratio_summary (effort_words accomplishment_words : nat) : string :=
  "This document has a high ratio of words suggesting "
  +:+ "effort (" +:+ format_int effort_words +:+ ") to words suggesting "
  +:+ "concrete accomplishment (" +:+ format_int effort_words +:+ ").".

(** [EffortDetector.get_report].  The third loop runs over the set in the
    order [elements] lists it; the order in which Python iterates a set
    is not specified either. *)
Definition get_report (doc : Document) : Report :=
  let report := new_Report category in
  let report := foldl lexical_step report (words_with_indices doc) in
  let doc := nlp (text doc) in
  let '(accomplishment_words, effort_words, flags) := syntactic_pass doc in
  let report := foldl report_tuple report (elements flags) in
  let report :=
    if decide (0 < effort_words ∧ effort_words ≤ accomplishment_words)%nat
    then set_summary report (ratio_summary effort_words accomplishment_words)
    else report in
  report.

(** The flags of the first loop, and the flags of the third loop, as
    they stand in the report. *)
Definition lexical_flags (words : list (string * Z * Z)) : list Flag :=
  flags (foldl lexical_step (new_Report category) words).

(** The flags of the report [get_report] returns that come behind those
    of the first loop: what the third loop added to the report. *)
Definition pass_B_flags (doc : Document) : list Flag :=
  drop (length (lexical_flags (words_with_indices doc))) (flags (get_report doc)).

Definition syntactic_flags (doc : Spacy.Doc) : list Flag :=
  flag_of_tuple <$> elements (syntactic_pass doc).2.

(** The tuples the second loop can add for one token, by the word
    list its surface text is found in. *)
Definition classified (token : Spacy.Token) : list flag_tuple :=
  if decide (Spacy.text token ∈ ACCOMPLISHMENT_WORDS)
  then [accomplishment_tuple token]
  else if decide (Spacy.text token ∈ EFFORT_WORDS)
  then [effort_tuple token]
  else [].

(** What the first loop adds for one triple. *)
Definition word_flags (w : string * Z * Z) : list Flag :=
  let '(word, start, stop) := w in
  (if decide (lower word ∈ EFFORT_WORDS)
   then [lexical_effort_flag word start stop] else [])
  ++ (if decide (lower word ∈ ACCOMPLISHMENT_WORDS)
      then [lexical_accomplishment_flag word start stop] else []).

End Detector.

(** The full tuple of a flag: span, warning text, suggestion, bias. *)
Definition tuple_of_flag (f : Flag) : flag_tuple :=
  (start f, stop f, description (issue f), fix_ (issue f), bias (issue f)).

End Effort.

(** ** The spec's reading of the quoted substrings

    The specification describes the keys of [identify_publications] as the
    content between paired double quotes, quotes included: reading left to
    right, the first double quote opens a quotation, the next one closes
    it, the third opens the next quotation, and so on.  The definitions of
    this module follow those words; they are compared with the code
    below. *)

Module Spec.

(** [inside] is [None] outside a quotation and [Some buf] inside one,
    where [buf] is the content read since the opening quote. *)
Fixpoint paired_quotes_from (inside : option string) (s : string) : list string :=
  match s with
  | EmptyString => []
  | String c s' =>
      match inside with
      | None =>
          if is_dquote c then paired_quotes_from (Some EmptyString) s'
          else paired_quotes_from None s'
      | Some buf =>
          if is_dquote c then quoted buf :: paired_quotes_from None s'
          else paired_quotes_from (Some (buf +:+ String c EmptyString)) s'
      end
  end.

Definition paired_quotes (s : string) : list string :=
  paired_quotes_from None s.

(** The weight of a key met [n] times: absent when [n = 0], else
    [n] times 0.25. *)
Definition weight (n : nat) : option Qc :=
  match n with
  | O => None
  | S _ => Some (Qc_of_Z (Z.of_nat n) * Publications.quarter)%Qc
  end.

(** The mapping the specification describes for a document. *)
Definition publications_of_pairs (doc : Document) (key : string) : option Qc :=
  weight (count_occ String.eq_dec (paired_quotes (text doc)) key).

(** No quotation of the text is empty: no opening double quote is
    directly followed by its closing double quote. *)
Definition no_empty_quotation (s : string) : Prop :=
  quoted EmptyString ∉ paired_quotes s.

End Spec.

(** ** Sample data

    Word lists, constants and parses used to run the detectors on concrete
    letters.  The words are the ones the specification names; the parses
    are what a dependency parser returns for the sentences. *)

Module Sample.

(** [str.lower] on the letters A to Z; on a text of ASCII characters,
    as all the sample letters are, this is what [str.lower] returns. *)
Definition lower_ascii (c : ascii) : ascii :=
  let n := nat_of_ascii c in
  if (65 <=? n)%nat && (n <=? 90)%nat then ascii_of_nat (n + 32) else c.

Fixpoint lower (s : string) : string :=
  match s with
  | EmptyString => EmptyString
  | String c s' => String (lower_ascii c) (lower s')
  end.

Definition EFFORT_WORDS : list string := ["hard-working"; "thorough"].
Definition ACCOMPLISHMENT_WORDS : list string := ["groundbreaking"].
Definition positive_result : Qc := 1%Qc.
Definition negative_result : Qc := (- 1)%Qc.

(** He published [Deep Learning Advances] and cited it again, both titles
    in double quotes. *)
Definition deep_learning : Document :=
  mkDocument
    ("He published " +:+ quoted "Deep Learning Advances" +:+ " and cited "
     +:+ quoted "Deep Learning Advances" +:+ " again.")
    [].

(** Two double quotes, the letter a, a double quote. *)
Definition empty_quotation : Document :=
  mkDocument (String dquote (quoted "a")) [].

(** A letter without any quotation. *)
Definition no_quotation : Document :=
  mkDocument "She is thorough." [].

(** A letter that quotes five titles. *)
Definition five_titles : Document :=
  mkDocument
    ("She wrote " +:+ quoted "Alpha" +:+ ", " +:+ quoted "Beta" +:+ ", "
     +:+ quoted "Gamma" +:+ ", " +:+ quoted "Delta" +:+ " and "
     +:+ quoted "Epsilon" +:+ ".")
    [].

Definition tok (t p d : string) (h : nat) (b e : Z) : Spacy.Token :=
  Spacy.mkToken t p d h (Spacy.mkSpan b e).

(** I am thorough. *)
Definition i_am_thorough : Document :=
  mkDocument "I am thorough."
    [("I", 0, 1); ("am", 2, 4); ("thorough", 5, 13); (".", 13, 14)]%Z.

Definition i_am_thorough_parse : Spacy.Doc :=
  [ tok "I" "PRON" "nsubj" 1 0 14;
    tok "am" "AUX" "ROOT" 1 0 14;
    tok "thorough" "ADJ" "acomp" 1 0 14;
    tok "." "PUNCT" "punct" 1 0 14 ].

(** She is thorough and he is thorough. *)
Definition twice_thorough : Document :=
  mkDocument "She is thorough and he is thorough."
    [("She", 0, 3); ("is", 4, 6); ("thorough", 7, 15); ("and", 16, 19);
     ("he", 20, 22); ("is", 23, 25); ("thorough", 26, 34); (".", 34, 35)]%Z.

Definition twice_thorough_parse : Spacy.Doc :=
  [ tok "She" "PRON" "nsubj" 1 0 35;
    tok "is" "AUX" "ROOT" 1 0 35;
    tok "thorough" "ADJ" "acomp" 1 0 35;
    tok "and" "CCONJ" "cc" 1 0 35;
    tok "he" "PRON" "nsubj" 5 0 35;
    tok "is" "AUX" "conj" 1 0 35;
    tok "thorough" "ADJ" "acomp" 5 0 35;
    tok "." "PUNCT" "punct" 5 0 35 ].

(** She is thorough. Mary is groundbreaking. He is groundbreaking. *)
Definition one_effort_two_accomplishments : Document :=
  mkDocument "She is thorough. Mary is groundbreaking. He is groundbreaking."
    [("She", 0, 3); ("is", 4, 6); ("thorough", 7, 15); (".", 15, 16);
     ("Mary", 17, 21); ("is", 22, 24); ("groundbreaking", 25, 39); (".", 39, 40);
     ("He", 41, 43); ("is", 44, 46); ("groundbreaking", 47, 61); (".", 61, 62)]%Z.

Definition one_effort_two_accomplishments_parse : Spacy.Doc :=
  [ tok "She" "PRON" "nsubj" 1 0 16;
    tok "is" "AUX" "ROOT" 1 0 16;
    tok "thorough" "ADJ" "acomp" 1 0 16;
    tok "." "PUNCT" "punct" 1 0 16;
    tok "Mary" "PROPN" "nsubj" 5 17 40;
    tok "is" "AUX" "ROOT" 5 17 40;
    tok "groundbreaking" "ADJ" "acomp" 5 17 40;
    tok "." "PUNCT" "punct" 5 17 40;
    tok "He" "PRON" "nsubj" 9 41 62;
    tok "is" "AUX" "ROOT" 9 41 62;
    tok "groundbreaking" "ADJ" "acomp" 9 41 62;
    tok "." "PUNCT" "punct" 9 41 62 ].

(** A sentence that opens with the word [W] as the complement of its
    subject: W she is. *)
Definition fronted (W : string) : Document :=
  let n := Z.of_nat (String.length W) in
  mkDocument (W +:+ " she is.")
    [(W, 0, n); ("she", n + 1, n + 4); ("is", n + 5, n + 7); (".", n + 7, n + 8)]%Z.

Definition fronted_parse (W : string) : Spacy.Doc :=
  let n := Z.of_nat (String.length W) in
  [ tok W "ADJ" "acomp" 2 0 (n + 8);
    tok "she" "PRON" "nsubj" 2 0 (n + 8);
    tok "is" "AUX" "ROOT" 2 0 (n + 8);
    tok "." "PUNCT" "punct" 2 0 (n + 8) ].

(** A parser for the sentence with [W] and the same sentence with the
    lowercase form of [W]. *)
Definition fronted_nlp (w W : string) (s : string) : Spacy.Doc :=
  if decide (s = text (fronted W)) then fronted_parse W else fronted_parse w.


(** She is a thorough worker: the effort word is a modifier of the noun,
    no word is an adjectival complement. *)
Definition thorough_worker : Document :=
  mkDocument "She is a thorough worker."
    [("She", 0, 3); ("is", 4, 6); ("a", 7, 8); ("thorough", 9, 17);
     ("worker", 18, 24); (".", 24, 25)]%Z.

Definition thorough_worker_parse : Spacy.Doc :=
  [ tok "She" "PRON" "nsubj" 1 0 25;
    tok "is" "AUX" "ROOT" 1 0 25;
    tok "a" "DET" "det" 4 0 25;
    tok "thorough" "ADJ" "amod" 4 0 25;
    tok "worker" "NOUN" "attr" 1 0 25;
    tok "." "PUNCT" "punct" 1 0 25 ].

(** Two titles quoted back to back, closing quote against opening
    quote. *)
Definition back_to_back : Document :=
  mkDocument (quoted "a" +:+ quoted "b") [].

(** A parser that knows the sample letters. *)
Definition nlp (s : string) : Spacy.Doc :=
  if decide (s = text i_am_thorough) then i_am_thorough_parse
  else if decide (s = text twice_thorough) then twice_thorough_parse
  else if decide (s = text one_effort_two_accomplishments)
       then one_effort_two_accomplishments_parse
  else if decide (s = text thorough_worker) then thorough_worker_parse
  else [].

Definition get_report : Document -> Report :=
  Effort.get_report nlp ACCOMPLISHMENT_WORDS EFFORT_WORDS
    positive_result negative_result lower.

End Sample.

(** ** Counts used in the statements *)

(** The number of double quote characters of a text. *)
Fixpoint count_dquotes (s : string) : nat :=
  match s with
  | EmptyString => 0
  | String c s' => (if is_dquote c then 1 else 0) + count_dquotes s'
  end.

(** The number of dependents of the head of [token] that pass the test of
    the inner loop of [EffortDetector.get_report]. *)
Definition references (doc : Spacy.Doc) (token : Spacy.Token) : nat :=
  length (filter Effort.is_reference (Spacy.children doc (Spacy.head token))).

(** The (token, reference) pairs among [tokens] whose token is an
    adjectival complement found in the accomplishment list, and those whose
    token is found in the effort list only. *)
Definition accomplishment_pairs (ACCOMPLISHMENT_WORDS : list string)
    (doc : Spacy.Doc) (tokens : list Spacy.Token) : nat :=
  sum_list
    ((λ token,
       if decide (Spacy.dep_ token = "acomp"
                  ∧ Spacy.text token ∈ ACCOMPLISHMENT_WORDS)
       then references doc token else 0%nat) <$> tokens).

Definition effort_pairs (ACCOMPLISHMENT_WORDS EFFORT_WORDS : list string)
    (doc : Spacy.Doc) (tokens : list Spacy.Token) : nat :=
  sum_list
    ((λ token,
       if decide (Spacy.dep_ token = "acomp"
                  ∧ (Spacy.text token ∉ ACCOMPLISHMENT_WORDS)
                  ∧ Spacy.text token ∈ EFFORT_WORDS)
       then references doc token else 0%nat) <$> tokens).

(** ** The test of the word offsets (tests/test_document.py) *)

Module TestDocument.

(** The body of the loop of [test_words_with_indices]: the three
    assertions in the order of the source, and the two assignments.  The
    state is (latest_start, latest_stop); [None] is a failed assertion. *)
Definition check_word (st : Z * Z) (w : string * Z * Z) : option (Z * Z) :=
  let '(latest_start, latest_stop) := st in
  let '(word, start, stop) := w in
  if decide (stop >= start)%Z then
    if decide (stop >= latest_stop)%Z then
      if decide (start >= latest_start)%Z then Some (start, stop) else None
    else None
  else None.

Fixpoint check_words (st : Z * Z) (ws : list (string * Z * Z)) : option (Z * Z) :=
  match ws with
  | [] => Some st
  | w :: ws' =>
      match check_word st w with
      | Some st' => check_words st' ws'
      | None => None
      end
  end.

(** [test_words_with_indices], on the triples of the document and the
    expected number of words of the fixture: [true] when every assertion
    holds. *)
Definition test_words_with_indices
    (words_with_indices : list (string * Z * Z)) (words : nat) : bool :=
  if decide (length words_with_indices = words)
  then bool_decide (is_Some (check_words (-1, 0)%Z words_with_indices))
  else false.

End TestDocument.

(** * Proofs *)

(** Closes a decidable goal about concrete data by evaluation. *)
Ltac by_evaluation :=
  match goal with
  | |- ?P => apply (bool_decide_unpack P); vm_compute; exact I
  end.

(** ** Strings and the matcher *)

Import Publications.

Lemma append_cons c a b : String c a +:+ b = String c (a +:+ b).
Proof. reflexivity. Qed.

Lemma append_nil_r a : a +:+ EmptyString = a.
Proof. induction a as [|c a IH]; [done|]. rewrite append_cons. by f_equal. Qed.

Lemma append_assoc a b c : (a +:+ b) +:+ c = a +:+ (b +:+ c).
Proof. induction a as [|d a IH]; [done|]. rewrite !append_cons. by f_equal. Qed.

Lemma is_dquote_true c : is_dquote c = true <-> c = dquote.
Proof. unfold is_dquote. by rewrite bool_decide_eq_true. Qed.

Lemma accepts_lit c : Re.accepts (Re.Lit dquote) c = is_dquote c.
Proof. reflexivity. Qed.

Lemma accepts_class c : Re.accepts (Re.NotIn [dquote]) c = negb (is_dquote c).
Proof.
  unfold Re.accepts, is_dquote.
  destruct (decide (c = dquote)) as [->|Hne].
  - rewrite bool_decide_eq_false_2; [|rewrite list_elem_of_singleton; tauto].
    by rewrite bool_decide_eq_true_2.
  - rewrite bool_decide_eq_true_2; [|by rewrite list_elem_of_singleton].
    by rewrite bool_decide_eq_false_2.
Qed.

Lemma match_closing s :
  Re.match_here closing s =
  match break_dquote s with
  | (String c run, String _ rest) => Some (String c run +:+ String dquote EmptyString, rest)
  | _ => None
  end.
Proof.
  induction s as [|c s IH]; [done|].
  change (Re.match_here closing (String c s)) with
    (if Re.accepts (Re.NotIn [dquote]) c then
       match Re.match_here closing s with
       | Some r => Some (Re.consume c r)
       | None => Re.consume c <$> Re.match_here [Re.One (Re.Lit dquote)] s
       end
     else None).
  rewrite accepts_class. cbn [break_dquote].
  destruct (is_dquote c) eqn:Hc; [done|]. cbn [negb].
  rewrite IH. cbn [fst snd].
  destruct s as [|d s']; [done|].
  cbn [break_dquote Re.match_here].
  change (Re.accepts (Re.Lit dquote) d) with (is_dquote d).
  destruct (is_dquote d) eqn:Hd; cbn [fst snd].
  - apply is_dquote_true in Hd as ->. reflexivity.
  - destruct (break_dquote s').2; reflexivity.
Qed.

Lemma break_dquote_app s : s = (break_dquote s).1 +:+ (break_dquote s).2.
Proof.
  induction s as [|c s IH]; [done|]. cbn [break_dquote].
  destruct (is_dquote c); [done|]. cbn [fst snd]. rewrite append_cons. by f_equal.
Qed.

Lemma break_dquote_length s :
  (String.length (break_dquote s).2 <= String.length s)%nat.
Proof.
  induction s as [|c s IH]; [done|]. cbn [break_dquote].
  destruct (is_dquote c); cbn; lia.
Qed.

Lemma break_dquote_rest s c r :
  (break_dquote s).2 = String c r -> c = dquote.
Proof.
  induction s as [|d s IH]; [done|]. cbn [break_dquote].
  destruct (is_dquote d) eqn:Hd; cbn [snd]; [|done].
  intros [= -> _]. by apply is_dquote_true.
Qed.

Lemma match_rxp c s :
  Re.match_here Publications.rxp (String c s) =
  if is_dquote c then Re.consume c <$> Re.match_here closing s else None.
Proof. reflexivity. Qed.

(** A match of the pattern consumes at least one character, so the fuel
    [findall] starts with, the length of the text, is never exhausted:
    more fuel changes nothing. *)
Lemma match_rxp_shorter s m rest :
  Re.match_here rxp s = Some (m, rest) ->
  (String.length rest < String.length s)%nat.
Proof.
  destruct s as [|c s]; [done|]. rewrite match_rxp.
  destruct (is_dquote c); [|done]. rewrite match_closing.
  pose proof (break_dquote_length s) as Hle.
  destruct (break_dquote s) as [[|r run] [|q rest']]; try done.
  cbn [fmap option_fmap option_map Re.consume fst snd]. intros [= _ <-].
  cbn [fst snd String.length] in *. lia.
Qed.

Lemma findall_fuel_enough fuel s :
  (String.length s <= fuel)%nat ->
  Re.findall_fuel fuel rxp s = Re.findall rxp s.
Proof.
  unfold Re.findall.
  assert (forall n fuel1 fuel2 t,
             (String.length t <= n)%nat ->
             (String.length t <= fuel1)%nat -> (String.length t <= fuel2)%nat ->
             Re.findall_fuel fuel1 rxp t = Re.findall_fuel fuel2 rxp t) as Hgen.
  { induction n as [|n IH]; intros fuel1 fuel2 t Hn H1 H2.
    - destruct t; [|cbn in Hn; lia]. by destruct fuel1, fuel2.
    - destruct t as [|c t]; [by destruct fuel1, fuel2|].
      cbn [String.length] in *.
      destruct fuel1 as [|fuel1]; [lia|]. destruct fuel2 as [|fuel2]; [lia|].
      cbn [Re.findall_fuel].
      destruct (Re.match_here rxp (String c t)) as [[m rest]|] eqn:Hm.
      + apply match_rxp_shorter in Hm. cbn [String.length] in Hm.
        f_equal. apply IH; lia.
      + apply IH; lia. }
  intros Hlen. by apply (Hgen fuel).
Qed.

(** A text without a closing quote holds no match at all. *)
Lemma findall_unclosed fuel s :
  (break_dquote s).2 = EmptyString -> Re.findall_fuel fuel Publications.rxp s = [].
Proof.
  revert s. induction fuel as [|fuel IH]; intros s Hs; [done|].
  destruct s as [|c s]; [done|].
  cbn [break_dquote] in Hs. destruct (is_dquote c) eqn:Hc; [done|].
  cbn [snd] in Hs.
  cbn [Re.findall_fuel]. rewrite match_rxp, Hc.
  by apply IH.
Qed.

Lemma paired_inside s buf :
  Spec.paired_quotes_from (Some buf) s =
  match (break_dquote s).2 with
  | EmptyString => []
  | String _ rest =>
      quoted (buf +:+ (break_dquote s).1) :: Spec.paired_quotes_from None rest
  end.
Proof.
  revert buf. induction s as [|c s IH]; intros buf; [done|].
  cbn [Spec.paired_quotes_from break_dquote].
  destruct (is_dquote c) eqn:Hc; cbn [fst snd].
  - by rewrite append_nil_r.
  - rewrite IH. destruct (break_dquote s).2; [done|].
    by rewrite append_assoc.
Qed.

(** Where no quotation is empty the scan of the pattern and the pairing
    of the quotes find the same substrings. *)
Lemma findall_pairs fuel s :
  (String.length s <= fuel)%nat ->
  Spec.no_empty_quotation s ->
  Re.findall_fuel fuel Publications.rxp s = Spec.paired_quotes s.
Proof.
  unfold Spec.no_empty_quotation, Spec.paired_quotes.
  revert s. induction fuel as [|fuel IH]; intros s Hlen Hne.
  { destruct s; [done|]. cbn in Hlen. lia. }
  destruct s as [|c s]; [done|].
  cbn [String.length] in Hlen.
  cbn [Re.findall_fuel Spec.paired_quotes_from] in Hne |- *. rewrite match_rxp.
  destruct (is_dquote c) eqn:Hc.
  2:{ apply IH; [lia|done]. }
  rewrite match_closing. rewrite paired_inside in Hne |- *.
  pose proof (break_dquote_length s) as Hle.
  destruct (break_dquote s) as [run rest] eqn:Hb. cbn [fst snd] in *.
  destruct rest as [|q rest].
  - assert (Re.findall_fuel fuel rxp s = []) as ->
      by (apply findall_unclosed; by rewrite Hb).
    by destruct run.
  - destruct run as [|r run].
    + exfalso. apply Hne. left.
    + cbn [fmap option_fmap option_map Re.consume fst snd].
      apply is_dquote_true in Hc as ->.
      f_equal. apply IH; [cbn [String.length] in Hle; lia|].
      intros Hin. apply Hne. by right.
Qed.

Lemma record_match_lookup pp m k :
  record_match pp m !! k = if decide (k = m) then bump (pp !! m) else pp !! k.
Proof.
  unfold record_match, bump. destruct (decide (k = m)) as [->|Hne].
  - destruct (pp !! m) as [w|] eqn:Hm.
    + by rewrite lookup_alter_eq, Hm.
    + by rewrite lookup_alter_eq, lookup_insert_eq.
  - rewrite lookup_alter_ne by done.
    destruct (pp !! m); [done|]. by rewrite lookup_insert_ne.
Qed.

Lemma foldl_record_match l pp k :
  foldl record_match pp l !! k = Nat.iter (count_occ String.eq_dec l k) bump (pp !! k).
Proof.
  revert pp. induction l as [|m l IH]; intros pp; [done|].
  cbn [foldl count_occ]. rewrite IH, record_match_lookup.
  destruct (String.eq_dec m k) as [->|Hne].
  - rewrite decide_True by done. by rewrite Nat.iter_succ_r.
  - by rewrite decide_False by done.
Qed.

Lemma weight_iter n : Nat.iter n bump None = Spec.weight n.
Proof.
  induction n as [|n IH]; [done|].
  rewrite Nat.iter_succ, IH. unfold bump, Spec.weight.
  destruct n as [|n].
  - reflexivity.
  - f_equal. cbn [default id].
    replace (Z.of_nat (S (S n))) with (Z.of_nat (S n) + 1)%Z by lia.
    rewrite Z2Qc_inj_add, Z2Qc_inj_1. ring.
Qed.

Lemma identify_publications_lookup doc k :
  identify_publications doc !! k =
  Spec.weight (count_occ String.eq_dec (Re.findall rxp (text doc)) k).
Proof.
  unfold identify_publications. by rewrite foldl_record_match, lookup_empty, weight_iter.
Qed.

Lemma count_occ_here (l : list string) k :
  count_occ String.eq_dec (k :: l) k = S (count_occ String.eq_dec l k).
Proof. cbn [count_occ]. by destruct (String.eq_dec k k). Qed.

Lemma count_occ_other (l : list string) m k :
  m <> k -> count_occ String.eq_dec (m :: l) k = count_occ String.eq_dec l k.
Proof. intros. cbn [count_occ]. by destruct (String.eq_dec m k). Qed.

Lemma deep_learning_publications : identify_publications Sample.deep_learning = {[ quoted "Deep Learning Advances" := half ]}.
Proof.
  apply map_eq. intros k. rewrite identify_publications_lookup.
  replace (Re.findall rxp (text Sample.deep_learning))
    with [quoted "Deep Learning Advances"; quoted "Deep Learning Advances"]
    by (vm_compute; reflexivity).
  destruct (decide (k = quoted "Deep Learning Advances")) as [->|Hne].
  - rewrite lookup_singleton_eq, !count_occ_here.
    unfold Spec.weight. f_equal. apply Qc_is_canon. reflexivity.
  - rewrite lookup_singleton_ne by done. by rewrite !count_occ_other by done.
Qed.

Lemma foldr_Qcplus_nonneg (l : list Qc) :
  Forall (fun v => 0 <= v)%Qc l -> (0 <= foldr Qcplus 0 l)%Qc.
Proof.
  induction 1 as [|v l Hv _ IH]; [done|].
  cbn [foldr]. rewrite <-(Qcplus_0_r 0). by apply Qcplus_le_compat.
Qed.

Lemma weight_nonneg n w : Spec.weight n = Some w -> (0 <= w)%Qc.
Proof.
  destruct n as [|n]; [done|]. intros [= <-].
  rewrite <-(Qcmult_0_l quarter). apply Qcmult_le_compat_r; [|done].
  rewrite <-Z2Qc_inj_0. apply (proj1 (Z2Qc_inj_le _ _)). lia.
Qed.

Lemma sum_values_nonneg doc : (0 <= sum_values (identify_publications doc))%Qc.
Proof.
  unfold sum_values. apply foldr_Qcplus_nonneg.
  apply Forall_forall. intros v [[k v'] [-> Hkv]]%list_elem_of_fmap.
  apply elem_of_map_to_list in Hkv. rewrite identify_publications_lookup in Hkv.
  by apply weight_nonneg in Hkv.
Qed.

Lemma sum_values_empty : sum_values ∅ = 0%Qc.
Proof. unfold sum_values. by rewrite map_to_list_empty. Qed.

(** ** The publication detector *)

(** C2, as stated, fails on a text that opens with an empty quotation: the
    code skips the first double quote and takes the second one for an
    opening quote, so it reports a key that no pair of quotes encloses. *)
Lemma identify_publications_pairs_counterexample :
  Spec.paired_quotes (text Sample.empty_quotation) = [quoted EmptyString]
  /\ Re.findall rxp (text Sample.empty_quotation) = [quoted "a"]
  /\ identify_publications Sample.empty_quotation !! quoted "a" = Some quarter
  /\ Spec.publications_of_pairs Sample.empty_quotation (quoted "a") = None
  /\ ~ (forall (doc : Document) (key : string),
          identify_publications doc !! key = Spec.publications_of_pairs doc key).
Proof.
  assert (identify_publications Sample.empty_quotation !! quoted "a" = Some quarter)
    as Hcode.
  { rewrite identify_publications_lookup.
    replace (Re.findall rxp (text Sample.empty_quotation)) with [quoted "a"]
      by (vm_compute; reflexivity).
    by rewrite count_occ_here. }
  assert (Spec.publications_of_pairs Sample.empty_quotation (quoted "a") = None)
    as Hspec by (vm_compute; reflexivity).
  split; [vm_compute; reflexivity|]. split; [vm_compute; reflexivity|].
  split; [done|]. split; [done|].
  intros H. specialize (H Sample.empty_quotation (quoted "a")).
  rewrite Hcode, Hspec in H. discriminate H.
Qed.

Lemma get_summary_not_enough (self : PublicationDetector) (doc : Document) :
  (sum_values (identify_publications doc) < min_publications self)%Qc ->
  get_summary self doc = not_enough.
Proof. intros H. unfold get_summary. by rewrite decide_True. Qed.

Lemma get_summary_at_least (self : PublicationDetector) (doc : Document) :
  ~ (sum_values (identify_publications doc) < min_publications self)%Qc ->
  (1 < min_publications self)%Qc ->
  get_summary self doc = at_least (ceil (min_publications self)).
Proof.
  intros H1 H2. unfold get_summary.
  rewrite decide_False by done. by rewrite decide_True.
Qed.

Lemma get_summary_at_least_one (self : PublicationDetector) (doc : Document) :
  ~ (sum_values (identify_publications doc) < min_publications self)%Qc ->
  ~ (1 < min_publications self)%Qc ->
  get_summary self doc = at_least_one.
Proof. intros H1 H2. unfold get_summary. by rewrite !decide_False. Qed.

(** C7.  [get_summary] returns the message that the document does not
    mention enough publications when the sum of the weights is below
    [min_publications]; else, for [min_publications] above 1, the message
    with the ceiling of [min_publications]; else the message that at least
    one publication is mentioned.  A detector built without arguments has
    [min_publications] 0.5 and reports not enough publications on a
    document in which no quoted substring is found. *)
Theorem get_summary_cases (self : PublicationDetector) (doc : Document) :
  let pub_count := sum_values (identify_publications doc) in
  ((pub_count < min_publications self)%Qc -> get_summary self doc = not_enough)
  /\ (~ (pub_count < min_publications self)%Qc -> (1 < min_publications self)%Qc ->
      get_summary self doc = at_least (ceil (min_publications self)))
  /\ (~ (pub_count < min_publications self)%Qc -> ~ (1 < min_publications self)%Qc ->
      get_summary self doc = at_least_one)
  /\ (__init__ ∅ = inr self -> identify_publications doc = ∅ ->
      min_publications self = half /\ get_summary self doc = not_enough).
Proof.
  cbn zeta. split; [|split; [|split]].
  - apply get_summary_not_enough.
  - apply get_summary_at_least.
  - apply get_summary_at_least_one.
  - intros [= <-] Hnone. split; [reflexivity|].
    apply get_summary_not_enough. rewrite Hnone, sum_values_empty. reflexivity.
Qed.

Lemma get_summary_cases_witness :
  get_summary {| min_publications := half |} Sample.no_quotation = not_enough
  /\ get_summary {| min_publications := Q2Qc (5 # 4) |} Sample.five_titles
     = "The text appears to mention at least 2 publications."
  /\ get_summary {| min_publications := half |} Sample.deep_learning = at_least_one
  /\ (min_publications {| min_publications := half |} = half
      /\ get_summary {| min_publications := half |} Sample.no_quotation = not_enough).
Proof.
  split; [|split; [|split]].
  - apply (proj1 (get_summary_cases _ Sample.no_quotation)). vm_compute. reflexivity.
  - change (get_summary {| min_publications := Q2Qc (5 # 4) |} Sample.five_titles
            = at_least (ceil (min_publications {| min_publications := Q2Qc (5 # 4) |}))).
    apply (proj1 (proj2 (get_summary_cases _ Sample.five_titles)));
      vm_compute; [discriminate | reflexivity].
  - apply (proj1 (proj2 (proj2 (get_summary_cases _ Sample.deep_learning))));
      vm_compute; discriminate.
  - apply (proj2 (proj2 (proj2 (get_summary_cases _ Sample.no_quotation))));
      vm_compute; reflexivity.
Defined.

(** C8.  The report of the publication detector carries no flag: its flag
    collection is empty, its label is Publications and its summary is the
    one [get_summary] returns. *)
Theorem get_report_no_flags (self : PublicationDetector) (doc : Document) :
  flags (get_report self doc) = []
  /\ name (get_report self doc) = "Publications"
  /\ summary (get_report self doc) = get_summary self doc.
Proof. by cbv [get_report set_summary new_Report flags name summary]. Qed.

(** C9, as amended.  The constructor accepts every [min_publications],
    negative ones included: it never fails and stores the value as given,
    or 0.5 when none is given; a detector with a negative
    [min_publications] reports on every document that at least one
    publication is mentioned. *)
Theorem init_accepts_any (kwargs : gmap string Qc) :
  __init__ kwargs
  = inr {| min_publications := default half (kwargs !! "min_publications") |}
  /\ forall (self : PublicationDetector) (doc : Document),
      __init__ kwargs = inr self -> (min_publications self < 0)%Qc ->
      get_summary self doc = at_least_one.
Proof.
  split; [reflexivity|]. intros self doc _ Hneg.
  pose proof (sum_values_nonneg doc) as Hsum.
  apply get_summary_at_least_one.
  - intros Hlt. apply (Qcle_not_lt _ _ Hsum). by eapply Qclt_trans.
  - intros Hlt. assert (1 < 0)%Qc as Habs by (by eapply Qclt_trans).
    discriminate Habs.
Qed.

Lemma init_accepts_any_witness :
  get_summary {| min_publications := (- 1)%Qc |} Sample.deep_learning = at_least_one.
Proof.
  apply (proj2 (init_accepts_any {[ "min_publications" := (- 1)%Qc ]})).
  - reflexivity.
  - vm_compute. reflexivity.
Defined.

(** C9, as stated, fails: a negative [min_publications] is stored and the
    constructor returns a detector. *)
Lemma init_negative_counterexample :
  __init__ {[ "min_publications" := (- 1)%Qc ]}
  = inr {| min_publications := (- 1)%Qc |}
  /\ (- 1 < 0)%Qc
  /\ ~ (forall (kwargs : gmap string Qc) (x : Qc),
          kwargs !! "min_publications" = Some x -> (x < 0)%Qc ->
          __init__ kwargs = inl ConfigurationError).
Proof.
  split; [reflexivity|]. split; [reflexivity|].
  intros H.
  specialize (H {[ "min_publications" := (- 1)%Qc ]} (- 1)%Qc).
  rewrite lookup_singleton_eq in H.
  discriminate (H eq_refl eq_refl).
Qed.

(** ** The effort detector: the three loops *)

Section EffortFacts.
Variable nlp : string -> Spacy.Doc.
Variables ACCOMPLISHMENT_WORDS EFFORT_WORDS : list string.
Variables positive_result negative_result : Qc.
Variable lower : string -> string.

Abbreviation lexical_step := (Effort.lexical_step ACCOMPLISHMENT_WORDS EFFORT_WORDS positive_result negative_result lower).
Abbreviation word_flags := (Effort.word_flags ACCOMPLISHMENT_WORDS EFFORT_WORDS positive_result negative_result lower).
Abbreviation lexical_flags := (Effort.lexical_flags ACCOMPLISHMENT_WORDS EFFORT_WORDS positive_result negative_result lower).
Abbreviation visit_reference := (Effort.visit_reference ACCOMPLISHMENT_WORDS EFFORT_WORDS positive_result negative_result).
Abbreviation visit_token := (Effort.visit_token ACCOMPLISHMENT_WORDS EFFORT_WORDS positive_result negative_result).
Abbreviation syntactic_pass := (Effort.syntactic_pass ACCOMPLISHMENT_WORDS EFFORT_WORDS positive_result negative_result).
Abbreviation syntactic_flags := (Effort.syntactic_flags ACCOMPLISHMENT_WORDS EFFORT_WORDS positive_result negative_result).
Abbreviation classified := (Effort.classified ACCOMPLISHMENT_WORDS EFFORT_WORDS positive_result negative_result).
Abbreviation get_report := (Effort.get_report nlp ACCOMPLISHMENT_WORDS EFFORT_WORDS positive_result negative_result lower).

Lemma lexical_step_flags report w :
  flags (lexical_step report w) = (flags report ++ word_flags w)%list.
Proof.
  destruct w as [[word start] stop]. unfold Effort.lexical_step, Effort.word_flags.
  repeat case_decide; cbn [flags add_flag];
    by rewrite ?List.app_nil_r, <-?List.app_assoc.
Qed.

Lemma lexical_step_summary report w :
  summary (lexical_step report w) = summary report.
Proof.
  destruct w as [[word start] stop]. unfold Effort.lexical_step.
  by repeat case_decide.
Qed.

Lemma lexical_step_name report w :
  name (lexical_step report w) = name report.
Proof.
  destruct w as [[word start] stop]. unfold Effort.lexical_step.
  by repeat case_decide.
Qed.

Lemma lexical_loop_flags words report :
  flags (foldl lexical_step report words)
  = (flags report ++ flat_map word_flags words)%list.
Proof.
  revert report. induction words as [|w words IH]; intros report.
  - by rewrite app_nil_r.
  - cbn [foldl flat_map]. by rewrite IH, lexical_step_flags, <-app_assoc.
Qed.

Lemma lexical_loop_summary words report :
  summary (foldl lexical_step report words) = summary report.
Proof.
  revert report. induction words as [|w words IH]; intros report; [done|].
  cbn [foldl]. by rewrite IH, lexical_step_summary.
Qed.

Lemma report_loop_flags ts report :
  flags (foldl Effort.report_tuple report ts)
  = (flags report ++ (Effort.flag_of_tuple <$> ts))%list.
Proof.
  revert report. induction ts as [|t ts IH]; intros report.
  - by rewrite app_nil_r.
  - cbn [foldl fmap list_fmap]. rewrite IH. cbn [Effort.report_tuple add_flag flags].
    by rewrite <-app_assoc.
Qed.

Lemma report_loop_summary ts report :
  summary (foldl Effort.report_tuple report ts) = summary report.
Proof.
  revert report. induction ts as [|t ts IH]; intros report; [done|].
  cbn [foldl]. by rewrite IH.
Qed.

Lemma get_report_flags doc :
  flags (get_report doc)
  = (lexical_flags (words_with_indices doc) ++ syntactic_flags (nlp (text doc)))%list.
Proof.
  unfold Effort.get_report, Effort.syntactic_flags, Effort.lexical_flags.
  destruct (syntactic_pass (nlp (text doc))) as [[a e] fs].
  case_decide; cbn [set_summary flags snd]; by rewrite report_loop_flags.
Qed.

Lemma get_report_summary doc :
  summary (get_report doc)
  = let '(a, e, _) := syntactic_pass (nlp (text doc)) in
    if decide (0 < e ∧ e ≤ a)%nat then Effort.ratio_summary e a else EmptyString.
Proof.
  unfold Effort.get_report.
  destruct (syntactic_pass (nlp (text doc))) as [[a e] fs].
  case_decide; cbn [set_summary summary]; [done|].
  by rewrite report_loop_summary, lexical_loop_summary.
Qed.

(** The set only grows, by the tuples of the token, and only when some
    child of the head is a reference. *)
Lemma visit_reference_set token st ref t :
  t ∈ (visit_reference token st ref).2
  ↔ t ∈ st.2 ∨ (Effort.is_reference ref ∧ t ∈ classified token).
Proof.
  destruct st as [[a e] fs]. unfold Effort.visit_reference, Effort.classified.
  repeat case_decide; cbn [snd]; set_solver.
Qed.

Lemma visit_references_set token refs st t :
  t ∈ (foldl (visit_reference token) st refs).2
  ↔ t ∈ st.2 ∨ (t ∈ classified token ∧ ∃ ref, ref ∈ refs ∧ Effort.is_reference ref).
Proof.
  revert st. induction refs as [|r refs IH]; intros st; cbn [foldl].
  - set_solver.
  - rewrite IH, visit_reference_set. set_solver.
Qed.

Lemma visit_token_set doc st token t :
  t ∈ (visit_token doc st token).2
  ↔ t ∈ st.2 ∨ (Spacy.dep_ token = "acomp" ∧ t ∈ classified token
                 ∧ ∃ ref, ref ∈ Spacy.children doc (Spacy.head token)
                          ∧ Effort.is_reference ref).
Proof.
  unfold Effort.visit_token. case_decide.
  - rewrite visit_references_set. tauto.
  - tauto.
Qed.

Lemma visit_tokens_set doc tokens st t :
  t ∈ (foldl (visit_token doc) st tokens).2
  ↔ t ∈ st.2 ∨ ∃ token, token ∈ tokens ∧ Spacy.dep_ token = "acomp"
                 ∧ t ∈ classified token
                 ∧ ∃ ref, ref ∈ Spacy.children doc (Spacy.head token)
                          ∧ Effort.is_reference ref.
Proof.
  revert st. induction tokens as [|k tokens IH]; intros st; cbn [foldl].
  - set_solver.
  - rewrite IH, visit_token_set. set_solver.
Qed.

Lemma syntactic_pass_set doc t :
  t ∈ (syntactic_pass doc).2
  ↔ ∃ token, token ∈ doc ∧ Spacy.dep_ token = "acomp"
             ∧ t ∈ classified token
             ∧ ∃ ref, ref ∈ Spacy.children doc (Spacy.head token)
                      ∧ Effort.is_reference ref.
Proof. unfold Effort.syntactic_pass. rewrite visit_tokens_set. set_solver. Qed.


Lemma tuple_of_flag_of_tuple t : Effort.tuple_of_flag (Effort.flag_of_tuple t) = t.
Proof. by destruct t as [[[[a b] c] d] e]. Qed.

Lemma syntactic_flags_tuples doc :
  Effort.tuple_of_flag <$> syntactic_flags doc = elements (syntactic_pass doc).2.
Proof.
  unfold Effort.syntactic_flags. rewrite <-list_fmap_compose.
  rewrite <-(list_fmap_id (elements _)) at 2.
  apply list_fmap_ext. intros _ t _. apply tuple_of_flag_of_tuple.
Qed.


Lemma lexical_flags_flat_map words :
  lexical_flags words = flat_map word_flags words.
Proof. unfold Effort.lexical_flags. by rewrite lexical_loop_flags. Qed.

Lemma syntactic_flags_elem doc f :
  f ∈ syntactic_flags doc
  ↔ ∃ t, f = Effort.flag_of_tuple t ∧ t ∈ (syntactic_pass doc).2.
Proof.
  unfold Effort.syntactic_flags. rewrite list_elem_of_fmap.
  by setoid_rewrite elem_of_elements.
Qed.

Lemma classified_span token t :
  t ∈ classified token →
  (Spacy.text token ∈ ACCOMPLISHMENT_WORDS ∨ Spacy.text token ∈ EFFORT_WORDS)
  ∧ t.1.1.1.1 = Spacy.start_char (Spacy.sent token)
  ∧ t.1.1.1.2 = Spacy.end_char (Spacy.sent token).
Proof.
  unfold Effort.classified.
  repeat case_decide; rewrite ?list_elem_of_singleton, ?elem_of_nil;
    [intros ->; by auto..|done].
Qed.

Lemma flag_of_tuple_span t :
  start (Effort.flag_of_tuple t) = t.1.1.1.1
  ∧ stop (Effort.flag_of_tuple t) = t.1.1.1.2.
Proof. by destruct t as [[[[a b] c] d] e]. Qed.

(** In a list whose images under [g] are pairwise distinct, exactly one
    element has a given image that occurs. *)
Lemma NoDup_fmap_count {A B : Type} `{EqDecision B} (g : A → B) (l : list A) (b : B) :
  NoDup (g <$> l) → b ∈ g <$> l →
  length (filter (λ x, g x = b) l) = 1%nat.
Proof.
  induction l as [|x l IH]; cbn [fmap list_fmap].
  - by intros _ ?%elem_of_nil.
  - rewrite NoDup_cons, elem_of_cons, filter_cons. intros [Hx Hl] Hb.
    case_decide as Hgx.
    + subst b. cbn [length]. f_equal.
      destruct (filter (λ y, g y = g x) l) as [|y ys] eqn:Hf; [done|]. exfalso.
      assert (y ∈ filter (λ y, g y = g x) l) as [Hgy Hy]%list_elem_of_filter
        by (rewrite Hf; left).
      apply Hx. rewrite <-Hgy. apply list_elem_of_fmap. eauto.
    + destruct Hb as [->|Hb]; [done|]. by apply IH.
Qed.

(** C4.  The first loop adds, for every (word, start, stop) of the
    document and in this order, a flag at (start, stop) with half the
    negative constant and the fixed, non-empty suggestion when the
    lowercased word is in the effort list, and a flag at (start, stop)
    with half the positive constant and no suggestion when the lowercased
    word is in the accomplishment list; it adds nothing else, and these
    flags open the report. *)
Theorem lexical_pass_flags (doc : Document) :
  lexical_flags (words_with_indices doc)
  = flat_map word_flags (words_with_indices doc)
  ∧ flags (get_report doc)
    = (lexical_flags (words_with_indices doc)
       ++ syntactic_flags (nlp (text doc)))%list
  ∧ ∀ (word : string) (start stop : Z),
      word_flags (word, start, stop)
      = ((if decide (lower word ∈ EFFORT_WORDS)
          then [mkFlag start stop
                  (mkIssue "Effort vs Accomplishment"
                     ("The word '" +:+ word
                      +:+ "' tends to speak more about effort than concrete accomplishment.")
                     "Speak about concrete achievement rather than abstract effort."
                     (negative_result * half)%Qc)]
          else [])
         ++ (if decide (lower word ∈ ACCOMPLISHMENT_WORDS)
             then [mkFlag start stop
                     (mkIssue "Effort vs Accomplishment"
                        ("The word '" +:+ word
                         +:+ "' illustrates concrete accomplishment.")
                        EmptyString
                        (positive_result * half)%Qc)]
             else []))%list.
Proof.
  split; [apply lexical_flags_flat_map|]. split; [apply get_report_flags|].
  reflexivity.
Qed.

End EffortFacts.

(** ** The effort detector on the sample letters *)

Lemma twice_thorough_flags :
  Effort.syntactic_flags Sample.ACCOMPLISHMENT_WORDS Sample.EFFORT_WORDS
    Sample.positive_result Sample.negative_result Sample.twice_thorough_parse
  = [mkFlag 0 35
       (mkIssue "Effort vs Accomplishment"
          "The word 'thorough' tends to speak about effort more than accomplishment."
          "Try replacing with phrasing that emphasizes accomplishment."
          Sample.negative_result)].
Proof. vm_compute. reflexivity. Qed.

Lemma twice_thorough_tally :
  (Effort.syntactic_pass Sample.ACCOMPLISHMENT_WORDS Sample.EFFORT_WORDS
     Sample.positive_result Sample.negative_result Sample.twice_thorough_parse).1
  = (0%nat, 2%nat).
Proof. vm_compute. reflexivity. Qed.





(** C1.  On a letter with one effort complement and two accomplishment
    complements the summary is set, but it prints the effort count in both
    places: it reads (1) and (1) where the counts are 1 and 2. *)
Theorem ratio_summary_repeats_effort_count :
  (Effort.syntactic_pass Sample.ACCOMPLISHMENT_WORDS Sample.EFFORT_WORDS
     Sample.positive_result Sample.negative_result
     (Sample.nlp (text Sample.one_effort_two_accomplishments))).1
  = (2%nat, 1%nat)
  ∧ summary (Sample.get_report Sample.one_effort_two_accomplishments)
    = "This document has a high ratio of words suggesting effort (1) to words suggesting concrete accomplishment (1)."
  ∧ summary (Sample.get_report Sample.one_effort_two_accomplishments)
    ≠ "This document has a high ratio of words suggesting effort (1) to words suggesting concrete accomplishment (2).".
Proof.
  split; [vm_compute; reflexivity|]. split; [vm_compute; reflexivity|].
  vm_compute. discriminate.
Qed.

(** The text of the summary is built from the effort count alone. *)
Lemma ratio_summary_text (e a : nat) :
  Effort.ratio_summary e a = Effort.ratio_summary e e.
Proof. reflexivity. Qed.

(** * Further properties of the two detectors *)

(** ** Quoted matches *)

Lemma count_dquotes_break s :
  count_dquotes s
  = (count_dquotes (break_dquote s).1 + count_dquotes (break_dquote s).2)%nat
  /\ count_dquotes (break_dquote s).1 = 0%nat.
Proof.
  induction s as [|c s [IH1 IH2]]; [done|].
  cbn [break_dquote]. destruct (is_dquote c) eqn:Hc; cbn [fst snd count_dquotes].
  - done.
  - rewrite Hc. cbn. by split.
Qed.

(** What a successful match looks like. *)
Lemma match_rxp_Some s m rest :
  Re.match_here rxp s = Some (m, rest) ->
  exists run, run <> EmptyString /\ count_dquotes run = 0%nat
              /\ m = quoted run /\ s = m +:+ rest.
Proof.
  destruct s as [|c s]; [done|]. rewrite match_rxp.
  destruct (is_dquote c) eqn:Hc; [|done].
  apply is_dquote_true in Hc as ->. rewrite match_closing.
  pose proof (break_dquote_app s) as Happ.
  pose proof (proj2 (count_dquotes_break s)) as Hfree.
  pose proof (break_dquote_rest s) as Hq.
  destruct (break_dquote s) as [[|r run] [|q rest']]; try done.
  cbn [fmap option_fmap option_map Re.consume fst snd] in *.
  intros [= <- <-]. rewrite (Hq q rest' eq_refl) in Happ.
  exists (String r run). split; [done|]. split; [done|]. split; [done|].
  unfold quoted. rewrite append_cons, append_assoc. by rewrite Happ at 1.
Qed.

Lemma findall_fuel_elem fuel s m :
  m ∈ Re.findall_fuel fuel rxp s ->
  exists run pre post,
    run <> EmptyString /\ count_dquotes run = 0%nat /\ m = quoted run
    /\ s = pre +:+ m +:+ post.
Proof.
  revert s. induction fuel as [|fuel IH]; intros s; [by intros ?%elem_of_nil|].
  destruct s as [|c s]; [by intros ?%elem_of_nil|].
  cbn [Re.findall_fuel].
  destruct (Re.match_here rxp (String c s)) as [[m' rest]|] eqn:Hm.
  - apply match_rxp_Some in Hm as (run & Hne & Hfree & -> & Hs).
    intros [->|Hin]%elem_of_cons.
    + exists run, EmptyString, rest. by repeat split.
    + apply IH in Hin as (run' & pre & post & ? & ? & -> & ->).
      exists run', (quoted run +:+ pre), post. repeat split; try done.
      by rewrite Hs, append_assoc.
  - intros Hin. apply IH in Hin as (run' & pre & post & ? & ? & -> & ->).
    exists run', (String c pre), post. by repeat split.
Qed.

Lemma findall_fuel_length fuel s :
  (2 * length (Re.findall_fuel fuel rxp s) <= count_dquotes s)%nat.
Proof.
  revert s. induction fuel as [|fuel IH]; intros s; [cbn; lia|].
  destruct s as [|c s]; [cbn; lia|].
  cbn [Re.findall_fuel].
  destruct (Re.match_here rxp (String c s)) as [[m rest]|] eqn:Hm.
  - revert Hm. rewrite match_rxp.
    destruct (is_dquote c) eqn:Hc; [|done]. rewrite match_closing.
    destruct (count_dquotes_break s) as [Hsum Hfree].
    pose proof (break_dquote_rest s) as Hq.
    destruct (break_dquote s) as [[|r run] [|q rest']]; try done.
    cbn [fmap option_fmap option_map Re.consume fst snd] in *.
    intros [= _ <-]. specialize (IH rest').
    assert (is_dquote q = true) as Hqt by (apply is_dquote_true; eauto).
    cbn [length]. cbn [count_dquotes] in Hsum |- *. rewrite Hc.
    rewrite Hqt in Hsum. lia.
  - specialize (IH s). cbn [count_dquotes]. lia.
Qed.

Lemma findall_elem_of_lookup doc key :
  is_Some (identify_publications doc !! key) ->
  key ∈ Re.findall rxp (text doc).
Proof.
  rewrite identify_publications_lookup. intros [w Hw].
  apply list_elem_of_In, (count_occ_In String.eq_dec).
  destruct (count_occ String.eq_dec (Re.findall rxp (text doc)) key); [done|lia].
Qed.

(** ** The sum of the weights *)

Lemma record_match_insert pp m :
  record_match pp m = <[m := (default 0%Qc (pp !! m) + quarter)%Qc]> pp.
Proof.
  apply map_eq. intros k. rewrite record_match_lookup.
  destruct (decide (k = m)) as [->|Hne].
  - by rewrite lookup_insert_eq.
  - by rewrite lookup_insert_ne.
Qed.

Lemma foldr_Qcplus_perm (l1 l2 : list Qc) :
  l1 ≡ₚ l2 -> foldr Qcplus 0%Qc l1 = foldr Qcplus 0%Qc l2.
Proof.
  induction 1 as [|x l1 l2 _ IH|x y l|l1 l2 l3 _ IH1 _ IH2]; cbn [foldr].
  - done.
  - by rewrite IH.
  - ring.
  - by rewrite IH1.
Qed.

Lemma sum_values_insert_fresh (d : gmap string Qc) k v :
  d !! k = None -> sum_values (<[k := v]> d) = (v + sum_values d)%Qc.
Proof.
  intros Hk. unfold sum_values.
  rewrite (foldr_Qcplus_perm _ (v :: (snd <$> map_to_list d))); [done|].
  by rewrite map_to_list_insert.
Qed.

Lemma sum_values_insert (d : gmap string Qc) k v :
  sum_values (<[k := v]> d) = (v + sum_values (delete k d))%Qc.
Proof.
  rewrite <-insert_delete_eq. apply sum_values_insert_fresh, lookup_delete_eq.
Qed.

Lemma sum_values_delete (d : gmap string Qc) k :
  sum_values d = (default 0%Qc (d !! k) + sum_values (delete k d))%Qc.
Proof.
  destruct (d !! k) as [w|] eqn:Hk; cbn [default].
  - rewrite <-(insert_id d k w) at 1 by done. apply sum_values_insert.
  - rewrite delete_id by done. ring.
Qed.

Lemma sum_values_record_match pp m :
  sum_values (record_match pp m) = (sum_values pp + quarter)%Qc.
Proof.
  rewrite record_match_insert, sum_values_insert, (sum_values_delete pp m). ring.
Qed.

Lemma sum_values_foldl l pp :
  sum_values (foldl record_match pp l)
  = (sum_values pp + Qc_of_Z (Z.of_nat (length l)) * quarter)%Qc.
Proof.
  revert pp. induction l as [|m l IH]; intros pp.
  - cbn [foldl length]. change (Z.of_nat 0) with 0%Z. rewrite Z2Qc_inj_0. ring.
  - cbn [foldl]. rewrite IH, sum_values_record_match.
    replace (Z.of_nat (length (m :: l))) with (Z.of_nat (length l) + 1)%Z
      by (cbn [length]; lia).
    rewrite Z2Qc_inj_add, Z2Qc_inj_1. ring.
Qed.

Lemma sum_values_matches doc :
  sum_values (identify_publications doc)
  = (Qc_of_Z (Z.of_nat (length (Re.findall rxp (text doc)))) * quarter)%Qc.
Proof.
  unfold identify_publications. rewrite sum_values_foldl, sum_values_empty. ring.
Qed.

Lemma at_least_not_not_enough k : at_least k <> not_enough.
Proof.
  intros H. apply (f_equal (String.get 2)) in H. vm_compute in H. discriminate H.
Qed.

Lemma at_least_one_not_not_enough : at_least_one <> not_enough.
Proof. discriminate. Qed.

Lemma get_summary_not_enough_inv (self : PublicationDetector) (doc : Document) :
  get_summary self doc = not_enough ->
  (sum_values (identify_publications doc) < min_publications self)%Qc.
Proof.
  intros Hsum.
  destruct (decide (sum_values (identify_publications doc)
                    < min_publications self)%Qc) as [|Hge]; [done|].
  destruct (decide (1 < min_publications self)%Qc) as [Hgt|Hle].
  - rewrite get_summary_at_least in Hsum by done.
    by apply at_least_not_not_enough in Hsum.
  - by rewrite get_summary_at_least_one in Hsum by done.
Qed.

(** ** Properties of the publication detector *)

(** X1.  Whatever the text, the weight stored for a key is 0.25 times the
    number of times the scan matched it, a key that was never matched is
    absent, and no stored weight is below 0.25. *)
Theorem publication_weight_per_match (doc : Document) (key : string) :
  identify_publications doc !! key
  = Spec.weight (count_occ String.eq_dec (Re.findall rxp (text doc)) key)
  /\ forall w : Qc, identify_publications doc !! key = Some w -> (quarter <= w)%Qc.
Proof.
  split; [apply identify_publications_lookup|].
  rewrite identify_publications_lookup. intros w.
  destruct (count_occ String.eq_dec (Re.findall rxp (text doc)) key) as [|n];
    [done|].
  intros [= <-]. rewrite <-(Qcmult_1_l quarter) at 1.
  apply Qcmult_le_compat_r; [|done].
  rewrite <-Z2Qc_inj_1. apply (proj1 (Z2Qc_inj_le _ _)). lia.
Qed.

Lemma publication_weight_per_match_witness :
  (quarter <= half)%Qc.
Proof.
  apply (proj2 (publication_weight_per_match Sample.deep_learning
                  (quoted "Deep Learning Advances"))).
  rewrite deep_learning_publications. apply lookup_singleton_eq.
Defined.

(** X2.  Every key of the mapping is a piece of the text: a double quote, a
    non-empty run of characters none of which is a double quote, and a
    double quote. *)
Theorem publication_keys_shape (doc : Document) (key : string) :
  is_Some (identify_publications doc !! key) ->
  exists run pre post : string,
    run <> EmptyString /\ count_dquotes run = 0%nat
    /\ key = quoted run /\ text doc = pre +:+ key +:+ post.
Proof.
  intros Hkey. apply findall_elem_of_lookup in Hkey.
  by apply findall_fuel_elem in Hkey.
Qed.

Lemma publication_keys_shape_witness :
  exists run pre post : string,
    run <> EmptyString /\ count_dquotes run = 0%nat
    /\ quoted "Deep Learning Advances" = quoted run
    /\ text Sample.deep_learning
       = pre +:+ quoted "Deep Learning Advances" +:+ post.
Proof.
  apply (publication_keys_shape Sample.deep_learning).
  rewrite deep_learning_publications, lookup_singleton_eq. by eexists.
Defined.

(** X3.  The count the summary is decided on is a quarter of the number of
    quoted matches, repeated titles counted each time. *)
Theorem pub_count_quarter_per_match (doc : Document) :
  sum_values (identify_publications doc)
  = (Qc_of_Z (Z.of_nat (length (Re.findall rxp (text doc)))) * quarter)%Qc.
Proof. apply sum_values_matches. Qed.

(** X4.  The summary says that the document does not mention enough
    publications exactly when a quarter of the number of quoted matches is
    below [min_publications]. *)
Theorem not_enough_iff (self : PublicationDetector) (doc : Document) :
  get_summary self doc = not_enough
  <-> (Qc_of_Z (Z.of_nat (length (Re.findall rxp (text doc)))) * quarter
       < min_publications self)%Qc.
Proof.
  rewrite <-sum_values_matches. split.
  - apply get_summary_not_enough_inv.
  - apply get_summary_not_enough.
Qed.

Lemma not_enough_iff_witness :
  get_summary {| min_publications := half |} Sample.no_quotation = not_enough.
Proof.
  apply (proj2 (not_enough_iff _ Sample.no_quotation)). vm_compute. reflexivity.
Defined.

(** X5.  The summary is never empty: whatever the threshold and the text,
    one of the three messages is returned. *)
Theorem get_summary_not_empty (self : PublicationDetector) (doc : Document) :
  get_summary self doc <> EmptyString.
Proof.
  unfold get_summary. repeat case_decide; [done| |done].
  intros Hnil. apply (f_equal (String.get 0)) in Hnil.
  vm_compute in Hnil. discriminate Hnil.
Qed.

(** X6.  Two double quotes are needed for a match: twice the number of
    matches is at most the number of double quote characters of the text.
    So a text with fewer than two of them gives the empty mapping, and the
    detector reports not enough publications for every positive
    threshold. *)
Theorem matches_bounded_by_quotes (self : PublicationDetector) (doc : Document) :
  (2 * length (Re.findall rxp (text doc)) <= count_dquotes (text doc))%nat
  /\ ((count_dquotes (text doc) < 2)%nat ->
      identify_publications doc = ∅
      /\ ((0 < min_publications self)%Qc -> get_summary self doc = not_enough)).
Proof.
  pose proof (findall_fuel_length (String.length (text doc)) (text doc)) as Hlen.
  split; [exact Hlen|]. intros Hfew.
  assert (Re.findall rxp (text doc) = []) as Hnone.
  { unfold Re.findall. destruct (Re.findall_fuel _ _ _); [done|].
    cbn [length] in Hlen. lia. }
  assert (identify_publications doc = ∅) as Hempty.
  { unfold identify_publications. by rewrite Hnone. }
  split; [done|]. intros Hpos.
  apply get_summary_not_enough. by rewrite Hempty, sum_values_empty.
Qed.

Lemma matches_bounded_by_quotes_witness :
  identify_publications Sample.no_quotation = ∅
  /\ get_summary {| min_publications := half |} Sample.no_quotation = not_enough.
Proof.
  destruct (proj2 (matches_bounded_by_quotes {| min_publications := half |}
                     Sample.no_quotation)) as [Hempty Hsummary].
  - vm_compute. lia.
  - split; [exact Hempty|]. apply Hsummary. reflexivity.
Defined.

(** X7.  The constructor reads the keyword [min_publications] only: any
    other keyword argument is accepted and has no effect, so a misspelt
    keyword leaves the default 0.5 in place. *)
Theorem init_ignores_other_keywords (kwargs : gmap string Qc) (k : string) (v : Qc) :
  k <> "min_publications" ->
  __init__ (<[k := v]> kwargs) = __init__ kwargs
  /\ (kwargs !! "min_publications" = None ->
      __init__ (<[k := v]> kwargs) = inr {| min_publications := half |}).
Proof.
  intros Hk. unfold __init__. rewrite lookup_insert_ne by done.
  split; [done|]. by intros ->.
Qed.

Lemma init_ignores_other_keywords_witness :
  __init__ {[ "min_publication" := 2%Qc ]} = inr {| min_publications := half |}.
Proof.
  apply (proj2 (init_ignores_other_keywords ∅ "min_publication" 2%Qc
                  ltac:(discriminate))).
  apply lookup_empty.
Defined.

(** X8.  Raising the threshold never removes the complaint: a document
    reported as not mentioning enough publications stays so under every
    larger [min_publications]. *)
Theorem not_enough_monotone (self self' : PublicationDetector) (doc : Document) :
  (min_publications self <= min_publications self')%Qc ->
  get_summary self doc = not_enough ->
  get_summary self' doc = not_enough.
Proof.
  intros Hle Hsum. apply get_summary_not_enough.
  apply get_summary_not_enough_inv in Hsum. by eapply Qclt_le_trans.
Qed.

Lemma not_enough_monotone_witness :
  get_summary {| min_publications := 2%Qc |} Sample.deep_learning = not_enough.
Proof.
  apply (not_enough_monotone {| min_publications := 1%Qc |}).
  - vm_compute. discriminate.
  - apply get_summary_not_enough. vm_compute. reflexivity.
Defined.

(** ** Properties of the effort detector *)

Lemma length_append (a b : string) :
  String.length (a +:+ b) = (String.length a + String.length b)%nat.
Proof.
  induction a as [|c a IH]; [done|].
  rewrite append_cons. cbn [String.length]. by rewrite IH.
Qed.

Lemma append_inj_r (a b c : string) : a +:+ c = b +:+ c -> a = b.
Proof.
  revert b. induction a as [|x a IH]; intros [|y b] Heq.
  - done.
  - apply (f_equal String.length) in Heq.
    rewrite !length_append in Heq. cbn [String.length] in Heq. lia.
  - apply (f_equal String.length) in Heq.
    rewrite !length_append in Heq. cbn [String.length] in Heq. lia.
  - rewrite !append_cons in Heq. injection Heq as -> Heq. f_equal. by apply IH.
Qed.

Lemma children_elem (doc : Spacy.Doc) (i : nat) (token : Spacy.Token) :
  doc !! i = Some token -> Spacy.head token <> i ->
  token ∈ Spacy.children doc (Spacy.head token).
Proof.
  intros Hi Hroot. unfold Spacy.children.
  apply list_elem_of_fmap. exists (i, token). split; [done|].
  apply list_elem_of_filter. split; [by split|].
  by apply (elem_of_lookup_imap_2 pair doc token i).
Qed.

Section EffortMore.
Variable nlp : string -> Spacy.Doc.
Variables ACCOMPLISHMENT_WORDS EFFORT_WORDS : list string.
Variables positive_result negative_result : Qc.
Variable lower : string -> string.

Abbreviation lexical_step := (Effort.lexical_step ACCOMPLISHMENT_WORDS EFFORT_WORDS positive_result negative_result lower).
Abbreviation word_flags := (Effort.word_flags ACCOMPLISHMENT_WORDS EFFORT_WORDS positive_result negative_result lower).
Abbreviation lexical_flags := (Effort.lexical_flags ACCOMPLISHMENT_WORDS EFFORT_WORDS positive_result negative_result lower).
Abbreviation visit_reference := (Effort.visit_reference ACCOMPLISHMENT_WORDS EFFORT_WORDS positive_result negative_result).
Abbreviation visit_token := (Effort.visit_token ACCOMPLISHMENT_WORDS EFFORT_WORDS positive_result negative_result).
Abbreviation syntactic_pass := (Effort.syntactic_pass ACCOMPLISHMENT_WORDS EFFORT_WORDS positive_result negative_result).
Abbreviation syntactic_flags := (Effort.syntactic_flags ACCOMPLISHMENT_WORDS EFFORT_WORDS positive_result negative_result).
Abbreviation classified := (Effort.classified ACCOMPLISHMENT_WORDS EFFORT_WORDS positive_result negative_result).
Abbreviation get_report := (Effort.get_report nlp ACCOMPLISHMENT_WORDS EFFORT_WORDS positive_result negative_result lower).

(** The counters of the second loop. *)
Lemma visit_references_counters token refs a e fs :
  (foldl (visit_reference token) (a, e, fs) refs).1
  = ((a + if decide (Spacy.text token ∈ ACCOMPLISHMENT_WORDS)
          then length (filter Effort.is_reference refs) else 0)%nat,
     (e + if decide ((Spacy.text token ∉ ACCOMPLISHMENT_WORDS)
                     ∧ Spacy.text token ∈ EFFORT_WORDS)
          then length (filter Effort.is_reference refs) else 0)%nat).
Proof.
  revert a e fs. induction refs as [|r refs IH]; intros a e fs.
  - cbn [foldl fst]. rewrite filter_nil. cbn [length].
    repeat case_decide; f_equal; lia.
  - cbn [foldl]. rewrite filter_cons.
    destruct (visit_reference token (a, e, fs) r) as [[a' e'] fs'] eqn:Hr.
    rewrite IH. unfold Effort.visit_reference in Hr.
    repeat case_decide; simplify_eq; cbn [length]; try tauto; f_equal; lia.
Qed.

Lemma visit_tokens_counters doc tokens a e fs :
  (foldl (visit_token doc) (a, e, fs) tokens).1
  = ((a + accomplishment_pairs ACCOMPLISHMENT_WORDS doc tokens)%nat,
     (e + effort_pairs ACCOMPLISHMENT_WORDS EFFORT_WORDS doc tokens)%nat).
Proof.
  revert a e fs. induction tokens as [|k tokens IH]; intros a e fs.
  - cbn. f_equal; lia.
  - cbn [foldl]. unfold accomplishment_pairs, effort_pairs.
    cbn [fmap list_fmap sum_list sum_list_with].
    fold (accomplishment_pairs ACCOMPLISHMENT_WORDS doc tokens).
    fold (effort_pairs ACCOMPLISHMENT_WORDS EFFORT_WORDS doc tokens).
    destruct (visit_token doc (a, e, fs) k) as [[a' e'] fs'] eqn:Hk.
    rewrite IH. apply (f_equal fst) in Hk. cbn [fst] in Hk.
    unfold Effort.visit_token in Hk.
    destruct (decide (Spacy.dep_ k = "acomp")) as [Hdep|Hdep].
    + rewrite visit_references_counters in Hk. injection Hk as <- <-.
      fold (references doc k).
      repeat case_decide; try tauto; f_equal; unfold id; lia.
    + injection Hk as <- <-. rewrite !decide_False by tauto.
      f_equal; unfold id; lia.
Qed.

Lemma syntactic_pass_counters doc :
  (syntactic_pass doc).1
  = (accomplishment_pairs ACCOMPLISHMENT_WORDS doc doc,
     effort_pairs ACCOMPLISHMENT_WORDS EFFORT_WORDS doc doc).
Proof. unfold Effort.syntactic_pass. by rewrite visit_tokens_counters. Qed.

Lemma size_add_singleton (t : Effort.flag_tuple) (fs : gset Effort.flag_tuple) :
  (size ({[t]} ∪ fs) ≤ S (size fs))%nat.
Proof.
  rewrite size_union_alt, size_singleton.
  apply le_n_S, subseteq_size. set_solver.
Qed.

Lemma visit_reference_size token st ref :
  (size st.2 ≤ st.1.1 + st.1.2)%nat →
  (size (visit_reference token st ref).2
   ≤ (visit_reference token st ref).1.1 + (visit_reference token st ref).1.2)%nat.
Proof.
  destruct st as [[a e] fs]. unfold Effort.visit_reference. cbn [fst snd].
  intros Hsize. repeat case_decide; cbn [fst snd]; try done.
  - pose proof (size_add_singleton (Effort.accomplishment_tuple positive_result token) fs).
    lia.
  - pose proof (size_add_singleton (Effort.effort_tuple negative_result token) fs).
    lia.
Qed.

Lemma visit_references_size token refs st :
  (size st.2 ≤ st.1.1 + st.1.2)%nat →
  (size (foldl (visit_reference token) st refs).2
   ≤ (foldl (visit_reference token) st refs).1.1
     + (foldl (visit_reference token) st refs).1.2)%nat.
Proof.
  revert st. induction refs as [|r refs IH]; intros st Hsize; [done|].
  cbn [foldl]. by apply IH, visit_reference_size.
Qed.

Lemma visit_tokens_size doc tokens st :
  (size st.2 ≤ st.1.1 + st.1.2)%nat →
  (size (foldl (visit_token doc) st tokens).2
   ≤ (foldl (visit_token doc) st tokens).1.1
     + (foldl (visit_token doc) st tokens).1.2)%nat.
Proof.
  revert st. induction tokens as [|k tokens IH]; intros st Hsize; [done|].
  cbn [foldl]. apply IH. unfold Effort.visit_token.
  case_decide; [by apply visit_references_size|done].
Qed.

Lemma lexical_loop_name words report :
  name (foldl lexical_step report words) = name report.
Proof.
  revert report. induction words as [|w words IH]; intros report; [done|].
  cbn [foldl]. by rewrite IH, lexical_step_name.
Qed.

Lemma report_loop_name ts report :
  name (foldl Effort.report_tuple report ts) = name report.
Proof.
  revert report. induction ts as [|t ts IH]; intros report; [done|].
  cbn [foldl]. by rewrite IH.
Qed.

Lemma elem_of_flat_map_word_flags words f :
  f ∈ flat_map word_flags words
  ↔ ∃ w, w ∈ words ∧ f ∈ word_flags w.
Proof.
  rewrite list_elem_of_In, in_flat_map.
  by setoid_rewrite list_elem_of_In.
Qed.

Lemma word_flags_elem word b e f :
  f ∈ word_flags (word, b, e) →
  start f = b ∧ stop f = e ∧ issue_name (issue f) = Effort.category.
Proof.
  unfold Effort.word_flags. rewrite elem_of_app.
  intros [Hf|Hf]; case_decide;
    try (by apply elem_of_nil in Hf);
    apply list_elem_of_singleton in Hf as ->; done.
Qed.

(** X9.  The two counters count (token, reference) pairs, not words: each
    adjectival complement is counted once for every dependent of its head
    that is a referenced subject, as accomplishment when its text is in
    the accomplishment list, and as effort when it is in the effort list
    only. *)
Theorem counters_count_pairs (doc : Spacy.Doc) :
  (syntactic_pass doc).1
  = (accomplishment_pairs ACCOMPLISHMENT_WORDS doc doc,
     effort_pairs ACCOMPLISHMENT_WORDS EFFORT_WORDS doc doc).
Proof. apply syntactic_pass_counters. Qed.

(** X10.  The summary of the report is the ratio message when the number
    of effort pairs is positive and at most the number of accomplishment
    pairs, and it is empty in every other case, in particular when no
    effort complement is found. *)
Theorem summary_rule (doc : Document) :
  let a := accomplishment_pairs ACCOMPLISHMENT_WORDS (nlp (text doc)) (nlp (text doc)) in
  let e := effort_pairs ACCOMPLISHMENT_WORDS EFFORT_WORDS (nlp (text doc)) (nlp (text doc)) in
  summary (get_report doc)
  = if decide (0 < e ∧ e ≤ a)%nat then Effort.ratio_summary e a else EmptyString.
Proof.
  cbn zeta. rewrite get_report_summary.
  pose proof (syntactic_pass_counters (nlp (text doc))) as Hc.
  destruct (syntactic_pass (nlp (text doc))) as [[a e] fs].
  cbn [fst] in Hc. by injection Hc as -> ->.
Qed.

(** X11.  The second pass never reports more flags than it counted pairs:
    the number of its flags is at most the sum of the two counters. *)
Theorem syntactic_flags_bounded (doc : Spacy.Doc) :
  (length (syntactic_flags doc)
   ≤ accomplishment_pairs ACCOMPLISHMENT_WORDS doc doc
     + effort_pairs ACCOMPLISHMENT_WORDS EFFORT_WORDS doc doc)%nat.
Proof.
  unfold Effort.syntactic_flags. rewrite length_fmap.
  pose proof (visit_tokens_size doc doc (0%nat, 0%nat, ∅)) as Hsize.
  fold (syntactic_pass doc) in Hsize.
  rewrite (syntactic_pass_counters doc) in Hsize. cbn [fst snd] in Hsize.
  apply Hsize. rewrite size_empty. lia.
Qed.

(** X12.  The report and every flag in it, lexical or syntactic, carry
    the category Effort vs Accomplishment. *)
Theorem report_category (doc : Document) :
  name (get_report doc) = "Effort vs Accomplishment"
  ∧ ∀ f : Flag, f ∈ flags (get_report doc) →
      issue_name (issue f) = "Effort vs Accomplishment".
Proof.
  split.
  - unfold Effort.get_report.
    destruct (syntactic_pass (nlp (text doc))) as [[a e] fs].
    case_decide; cbn [set_summary name];
      by rewrite report_loop_name, lexical_loop_name.
  - intros f. rewrite get_report_flags, elem_of_app, lexical_flags_flat_map.
    rewrite elem_of_flat_map_word_flags, syntactic_flags_elem.
    intros [([[word b] e] & _ & Hf)|(t & -> & _)].
    + by apply word_flags_elem in Hf as (_ & _ & ->).
    + by destruct t as [[[[? ?] ?] ?] ?].
Qed.

Lemma effort_warning_inj (token token' : Spacy.Token) :
  Effort.effort_warning token = Effort.effort_warning token' →
  Spacy.text token = Spacy.text token'.
Proof.
  unfold Effort.effort_warning. intros Heq.
  apply String.app_inj in Heq. by apply append_inj_r in Heq.
Qed.

Lemma classified_cases token t :
  t ∈ classified token →
  (Spacy.text token ∈ ACCOMPLISHMENT_WORDS
   ∧ t = Effort.accomplishment_tuple positive_result token)
  ∨ ((Spacy.text token ∉ ACCOMPLISHMENT_WORDS)
     ∧ Spacy.text token ∈ EFFORT_WORDS
     ∧ t = Effort.effort_tuple negative_result token).
Proof.
  unfold Effort.classified.
  repeat case_decide; rewrite ?list_elem_of_singleton, ?elem_of_nil; naive_solver.
Qed.

Lemma flag_of_tuple_inj t t' :
  Effort.flag_of_tuple t = Effort.flag_of_tuple t' → t = t'.
Proof.
  intros Heq. apply (f_equal Effort.tuple_of_flag) in Heq.
  by rewrite !tuple_of_flag_of_tuple in Heq.
Qed.

Lemma visit_tokens_idle doc tokens st :
  (∀ token, token ∈ tokens → Spacy.dep_ token ≠ "acomp") →
  foldl (visit_token doc) st tokens = st.
Proof.
  revert st. induction tokens as [|k tokens IH]; intros st Hno; [done|].
  cbn [foldl]. unfold Effort.visit_token at 2.
  rewrite decide_False by (apply Hno; left).
  apply IH. intros token Hin. apply Hno. by right.
Qed.

Lemma lexical_flags_elem words f :
  f ∈ lexical_flags words ↔ ∃ w, w ∈ words ∧ f ∈ word_flags w.
Proof. by rewrite lexical_flags_flat_map, elem_of_flat_map_word_flags. Qed.

(** X13.  Every flag of the second pass stems from an adjectival
    complement whose head has a referenced subject, and its fields follow
    the list the token is in: the accomplishment warning, no suggestion and
    the positive constant, or the effort warning, the fixed suggestion and
    the negative constant. *)
Theorem syntactic_flag_fields (doc : Spacy.Doc) (f : Flag) :
  f ∈ syntactic_flags doc →
  ∃ token ref : Spacy.Token,
    token ∈ doc ∧ Spacy.dep_ token = "acomp"
    ∧ ref ∈ Spacy.children doc (Spacy.head token) ∧ Effort.is_reference ref
    ∧ ((Spacy.text token ∈ ACCOMPLISHMENT_WORDS
        ∧ description (issue f) = Effort.accomplishment_warning token
        ∧ fix_ (issue f) = EmptyString
        ∧ bias (issue f) = positive_result)
       ∨ ((Spacy.text token ∉ ACCOMPLISHMENT_WORDS)
          ∧ Spacy.text token ∈ EFFORT_WORDS
          ∧ description (issue f) = Effort.effort_warning token
          ∧ fix_ (issue f) = "Try replacing with phrasing that emphasizes accomplishment."
          ∧ bias (issue f) = negative_result)).
Proof.
  rewrite syntactic_flags_elem. intros (t & -> & Ht).
  apply syntactic_pass_set in Ht as (token & Hin & Hdep & Hcl & ref & Href & Hisref).
  exists token, ref. repeat (split; [done|]).
  apply classified_cases in Hcl as [[HA ->]|(HA & HE & ->)]; [left|right]; done.
Qed.

(** X14.  A word that is in both lists is treated differently by the two
    passes: the first pass raises both the effort flag and the
    accomplishment flag for it, the second pass classifies it as
    accomplishment only and never raises the effort flag of such a
    token. *)
Theorem accomplishment_takes_precedence
    (doc : Spacy.Doc) (token : Spacy.Token)
    (words : list (string * Z * Z)) (word : string) (b e : Z) :
  Spacy.text token ∈ ACCOMPLISHMENT_WORDS →
  lower word ∈ ACCOMPLISHMENT_WORDS → lower word ∈ EFFORT_WORDS →
  (word, b, e) ∈ words →
  (Effort.flag_of_tuple (Effort.effort_tuple negative_result token)
     ∉ syntactic_flags doc)
  ∧ Effort.lexical_effort_flag negative_result word b e ∈ lexical_flags words
  ∧ Effort.lexical_accomplishment_flag positive_result word b e ∈ lexical_flags words.
Proof.
  intros HA HwA HwE Hw. split.
  - rewrite syntactic_flags_elem. intros (t & Heq & Ht).
    apply flag_of_tuple_inj in Heq as <-.
    apply syntactic_pass_set in Ht as (token' & _ & _ & Hcl & _).
    apply classified_cases in Hcl as [[_ Heq]|(HA' & _ & Heq)].
    + discriminate Heq.
    + apply (f_equal (λ t : Effort.flag_tuple, t.1.1.2)) in Heq.
      cbn [Effort.effort_tuple fst snd] in Heq.
      apply effort_warning_inj in Heq. apply HA'. by rewrite <-Heq.
  - split; apply lexical_flags_elem; exists (word, b, e); (split; [done|]);
      unfold Effort.word_flags; rewrite !decide_True by done;
      apply elem_of_app; [left|right]; left.
Qed.

(** X15.  A letter whose parse has no adjectival complement gets no flag
    from the second pass: the report holds the lexical flags only and its
    summary is empty.  This covers the empty letter. *)
Theorem no_complement_no_syntactic_flag (doc : Document) :
  (∀ token : Spacy.Token,
      token ∈ nlp (text doc) → Spacy.dep_ token ≠ "acomp") →
  syntactic_flags (nlp (text doc)) = []
  ∧ flags (get_report doc) = lexical_flags (words_with_indices doc)
  ∧ summary (get_report doc) = EmptyString.
Proof.
  intros Hno.
  assert (syntactic_pass (nlp (text doc)) = (0%nat, 0%nat, ∅)) as Hpass
    by (by apply visit_tokens_idle).
  assert (syntactic_flags (nlp (text doc)) = []) as Hnone.
  { unfold Effort.syntactic_flags. rewrite Hpass. cbn [snd].
    by rewrite elements_empty. }
  split; [done|]. split.
  - by rewrite get_report_flags, Hnone, List.app_nil_r.
  - by rewrite get_report_summary, Hpass.
Qed.

(** X16.  When [str.lower] leaves every word of the lists as it is, that
    is when the lists hold lowercase words only, the second pass
    matches nothing that the first pass would not match: a token whose
    text the second pass finds in a list is flagged by the first pass
    wherever that text stands among the words of the document. *)
Theorem lowercase_lists_syntactic_implies_lexical
    (token : Spacy.Token) (words : list (string * Z * Z)) (b e : Z) :
  (∀ w : string, w ∈ ACCOMPLISHMENT_WORDS ∨ w ∈ EFFORT_WORDS → lower w = w) →
  classified token ≠ [] →
  (Spacy.text token, b, e) ∈ words →
  ∃ f : Flag, f ∈ lexical_flags words ∧ start f = b ∧ stop f = e.
Proof.
  intros Hlower Hcl Hw.
  assert (Spacy.text token ∈ ACCOMPLISHMENT_WORDS ∨ Spacy.text token ∈ EFFORT_WORDS)
    as Hin.
  { unfold Effort.classified in Hcl. repeat case_decide; tauto. }
  pose proof (Hlower _ Hin) as Hfix.
  destruct (decide (Spacy.text token ∈ EFFORT_WORDS)) as [HE|HE].
  - exists (Effort.lexical_effort_flag negative_result (Spacy.text token) b e).
    split; [|done]. apply lexical_flags_elem. eexists; split; [exact Hw|].
    unfold Effort.word_flags. rewrite Hfix, decide_True by done.
    apply elem_of_app; left; left.
  - exists (Effort.lexical_accomplishment_flag positive_result (Spacy.text token) b e).
    split; [|done]. apply lexical_flags_elem. eexists; split; [exact Hw|].
    unfold Effort.word_flags. rewrite Hfix, decide_False by done.
    rewrite decide_True by tauto. left.
Qed.

(** X17.  The candidates for the referenced subject include the
    complement itself, which is a dependent of its own head: an adjectival
    complement tagged as a pronoun or a proper noun, and not one of the
    ignored pronouns, is flagged even when no other word refers to
    anybody. *)
Theorem complement_is_own_candidate
    (doc : Spacy.Doc) (i : nat) (token : Spacy.Token) (t : Effort.flag_tuple) :
  doc !! i = Some token → Spacy.head token ≠ i →
  Spacy.dep_ token = "acomp" → Effort.is_reference token →
  t ∈ classified token →
  Effort.flag_of_tuple t ∈ syntactic_flags doc.
Proof.
  intros Hi Hroot Hdep Hisref Hcl.
  apply syntactic_flags_elem. exists t. split; [done|].
  apply syntactic_pass_set. exists token.
  split; [by eapply list_elem_of_lookup_2|]. split; [done|]. split; [done|].
  exists token. split; [by eapply children_elem|done].
Qed.

Lemma lexical_flags_sorted (words : list (string * Z * Z)) :
  Sorted Z.le ((λ w, w.1.2) <$> words) →
  Sorted Z.le (start <$> lexical_flags words).
Proof.
  intros Hsorted. apply Sorted_StronglySorted in Hsorted; [|intros ???; lia].
  apply StronglySorted_Sorted. rewrite lexical_flags_flat_map.
  induction words as [|[[word b] e] words IH]; [constructor|].
  cbn [fmap list_fmap fst snd] in Hsorted.
  apply StronglySorted_cons in Hsorted as [Hall Hrest].
  cbn [flat_map]. rewrite fmap_app. apply StronglySorted_app.
  split; [|split; [|by apply IH]].
  - intros x1 x2 (f1 & -> & Hf1)%list_elem_of_fmap (f2 & -> & Hf2)%list_elem_of_fmap.
    apply word_flags_elem in Hf1 as (-> & _ & _).
    apply elem_of_flat_map_word_flags in Hf2 as ([[word' b'] e'] & Hw' & Hf2).
    apply word_flags_elem in Hf2 as (-> & _ & _).
    rewrite Forall_forall in Hall. apply Hall.
    apply list_elem_of_fmap. by exists (word', b', e').
  - unfold Effort.word_flags.
    repeat case_decide; cbn; repeat constructor; done.
Qed.

(** X18.  The lexical flags keep the order of the words: when the start
    offsets of the words do not decrease along the document, neither do
    the start offsets of the lexical flags. *)
Theorem lexical_flags_in_document_order (words : list (string * Z * Z)) :
  Sorted Z.le ((λ w, w.1.2) <$> words) →
  Sorted Z.le (start <$> lexical_flags words).
Proof. apply lexical_flags_sorted. Qed.

Abbreviation pass_B_flags := (Effort.pass_B_flags nlp ACCOMPLISHMENT_WORDS EFFORT_WORDS positive_result negative_result lower).

(** What stands in the report behind the lexical flags is what the third
    loop built from the set. *)
Lemma pass_B_flags_syntactic doc :
  pass_B_flags doc = syntactic_flags (nlp (text doc)).
Proof.
  unfold Effort.pass_B_flags. rewrite get_report_flags. apply drop_app_length.
Qed.

Lemma classified_intro token t :
  (Spacy.text token ∈ ACCOMPLISHMENT_WORDS
   ∧ t = Effort.accomplishment_tuple positive_result token)
  ∨ ((Spacy.text token ∉ ACCOMPLISHMENT_WORDS)
     ∧ Spacy.text token ∈ EFFORT_WORDS
     ∧ t = Effort.effort_tuple negative_result token) →
  t ∈ classified token.
Proof.
  unfold Effort.classified. intros [[HA ->]|(HA & HE & ->)].
  - rewrite decide_True by done. left.
  - rewrite decide_False by done. rewrite decide_True by done. left.
Qed.

Lemma pass_B_flags_elem doc f :
  f ∈ pass_B_flags doc
  ↔ ∃ (token ref : Spacy.Token) (t : Effort.flag_tuple),
      token ∈ nlp (text doc) ∧ Spacy.dep_ token = "acomp"
      ∧ ref ∈ Spacy.children (nlp (text doc)) (Spacy.head token)
      ∧ Effort.is_reference ref
      ∧ t ∈ classified token ∧ f = Effort.flag_of_tuple t.
Proof.
  rewrite pass_B_flags_syntactic, syntactic_flags_elem. split.
  - intros (t & -> & Ht).
    apply syntactic_pass_set in Ht as (token & ? & ? & ? & ref & ? & ?).
    by exists token, ref, t.
  - intros (token & ref & t & ? & ? & ? & ? & ? & ->).
    exists t. split; [done|]. apply syntactic_pass_set. exists token. eauto 10.
Qed.

(** C5.  Every flag that the second pass puts in the report is the flag of
    an adjectival complement with a referenced subject: it carries the
    warning, the suggestion and the bias of that token, and its start and
    stop are the character offsets of the sentence the token belongs to,
    not those of the word.  Conversely every such token has its flag, at
    the span of its sentence, in the report. *)
Theorem syntactic_flag_span (doc : Document) :
  (∀ f : Flag,
      f ∈ pass_B_flags doc →
      ∃ token ref : Spacy.Token,
        token ∈ nlp (text doc) ∧ Spacy.dep_ token = "acomp"
        ∧ ref ∈ Spacy.children (nlp (text doc)) (Spacy.head token)
        ∧ Effort.is_reference ref
        ∧ start f = Spacy.start_char (Spacy.sent token)
        ∧ stop f = Spacy.end_char (Spacy.sent token)
        ∧ ((Spacy.text token ∈ ACCOMPLISHMENT_WORDS
            ∧ issue f = mkIssue "Effort vs Accomplishment"
                          (Effort.accomplishment_warning token)
                          EmptyString positive_result)
           ∨ ((Spacy.text token ∉ ACCOMPLISHMENT_WORDS)
              ∧ Spacy.text token ∈ EFFORT_WORDS
              ∧ issue f = mkIssue "Effort vs Accomplishment"
                            (Effort.effort_warning token)
                            Effort.effort_suggestion negative_result)))
  ∧ (∀ token ref : Spacy.Token,
        token ∈ nlp (text doc) → Spacy.dep_ token = "acomp" →
        ref ∈ Spacy.children (nlp (text doc)) (Spacy.head token) →
        Effort.is_reference ref →
        (Spacy.text token ∈ ACCOMPLISHMENT_WORDS →
         mkFlag (Spacy.start_char (Spacy.sent token))
                (Spacy.end_char (Spacy.sent token))
                (mkIssue "Effort vs Accomplishment"
                   (Effort.accomplishment_warning token)
                   EmptyString positive_result)
         ∈ pass_B_flags doc)
        ∧ (Spacy.text token ∉ ACCOMPLISHMENT_WORDS →
           Spacy.text token ∈ EFFORT_WORDS →
           mkFlag (Spacy.start_char (Spacy.sent token))
                  (Spacy.end_char (Spacy.sent token))
                  (mkIssue "Effort vs Accomplishment"
                     (Effort.effort_warning token)
                     Effort.effort_suggestion negative_result)
           ∈ pass_B_flags doc)).
Proof.
  split.
  - intros f (token & ref & t & Hin & Hdep & Href & Hisref & Hcl & ->)%pass_B_flags_elem.
    exists token, ref. repeat (split; [done|]).
    apply classified_cases in Hcl as [[HA ->]|(HA & HE & ->)].
    + split; [done|]. split; [done|]. by left.
    + split; [done|]. split; [done|]. by right.
  - intros token ref Hin Hdep Href Hisref. split.
    + intros HA. apply pass_B_flags_elem.
      exists token, ref, (Effort.accomplishment_tuple positive_result token).
      repeat (split; [done|]). split; [|done]. apply classified_intro. by left.
    + intros HA HE. apply pass_B_flags_elem.
      exists token, ref, (Effort.effort_tuple negative_result token).
      repeat (split; [done|]). split; [|done]. apply classified_intro. by right.
Qed.

(** C6.  The report is the lexical flags followed by the flags of the
    second pass, and among the latter no two have the same full tuple
    (span, warning text, suggestion, bias): a tuple that the nested loops
    reach, however often, is put in the report exactly once. *)
Theorem syntactic_flags_deduplicated (doc : Document) :
  flags (get_report doc)
  = (lexical_flags (words_with_indices doc) ++ pass_B_flags doc)%list
  ∧ NoDup (Effort.tuple_of_flag <$> pass_B_flags doc)
  ∧ ∀ (token ref : Spacy.Token) (t : Effort.flag_tuple),
      token ∈ nlp (text doc) → Spacy.dep_ token = "acomp" →
      ref ∈ Spacy.children (nlp (text doc)) (Spacy.head token) →
      Effort.is_reference ref →
      (Spacy.text token ∈ ACCOMPLISHMENT_WORDS
       ∧ t = Effort.accomplishment_tuple positive_result token)
      ∨ ((Spacy.text token ∉ ACCOMPLISHMENT_WORDS)
         ∧ Spacy.text token ∈ EFFORT_WORDS
         ∧ t = Effort.effort_tuple negative_result token) →
      length (filter (λ f, Effort.tuple_of_flag f = t) (pass_B_flags doc)) = 1%nat.
Proof.
  split; [by rewrite pass_B_flags_syntactic, get_report_flags|].
  rewrite pass_B_flags_syntactic.
  assert (NoDup (Effort.tuple_of_flag <$> syntactic_flags (nlp (text doc))))
    as Hnodup.
  { rewrite syntactic_flags_tuples. apply NoDup_elements. }
  split; [done|]. intros token ref t Hin Hdep Href Hisref Hcl.
  apply NoDup_fmap_count; [done|].
  rewrite syntactic_flags_tuples, elem_of_elements.
  apply syntactic_pass_set. exists token.
  repeat (split; [done|]). split; [by apply classified_intro|]. by exists ref.
Qed.

End EffortMore.

(** ** The test of the word offsets *)

Lemma Sorted_cons_cons (x y : Z) (l : list Z) :
  Sorted Z.le (x :: y :: l) ↔ (x ≤ y)%Z ∧ Sorted Z.le (y :: l).
Proof.
  split.
  - intros H. apply Sorted_inv in H as [Hs Hh]. apply HdRel_inv in Hh. done.
  - intros [Hxy Hs]. constructor; [done|by constructor].
Qed.

Lemma check_words_spec (ws : list (string * Z * Z)) (latest_start latest_stop : Z) :
  is_Some (TestDocument.check_words (latest_start, latest_stop) ws)
  ↔ Forall (λ w, w.1.2 ≤ w.2)%Z ws
    ∧ Sorted Z.le (latest_start :: ((λ w, w.1.2) <$> ws))
    ∧ Sorted Z.le (latest_stop :: ((λ w, w.2) <$> ws)).
Proof.
  revert latest_start latest_stop.
  induction ws as [|[[word b] e] ws IH]; intros ls lt.
  - cbn. split; [|by eexists]. intros _. repeat split; repeat constructor.
  - cbn [TestDocument.check_words TestDocument.check_word fmap list_fmap fst snd].
    rewrite Forall_cons, !Sorted_cons_cons. cbn [fst snd].
    repeat case_decide.
    + rewrite IH. intuition lia.
    + split; [by intros [? [=]]|lia].
    + split; [by intros [? [=]]|lia].
    + split; [by intros [? [=]]|lia].
Qed.

(** X19.  [test_words_with_indices] passes exactly when the document has
    the expected number of words, no word stops before it starts, the start
    offsets never decrease and are at least -1, and the stop offsets never
    decrease and are at least 0. *)
Theorem test_words_with_indices_spec
    (ws : list (string * Z * Z)) (words : nat) :
  TestDocument.test_words_with_indices ws words = true
  ↔ length ws = words
    ∧ Forall (λ w, w.1.2 ≤ w.2)%Z ws
    ∧ Sorted Z.le ((-1)%Z :: ((λ w, w.1.2) <$> ws))
    ∧ Sorted Z.le (0%Z :: ((λ w, w.2) <$> ws)).
Proof.
  unfold TestDocument.test_words_with_indices. case_decide as Hlen.
  - rewrite bool_decide_eq_true, check_words_spec. tauto.
  - split; [done|]. tauto.
Qed.

(** X20.  On a document that passes [test_words_with_indices], the first
    pass of the effort detector reports its flags from left to right: the
    start offsets of the lexical flags never decrease, and no flag stops
    before it starts. *)
Theorem tested_document_lexical_flags
    (ACCOMPLISHMENT_WORDS EFFORT_WORDS : list string)
    (positive_result negative_result : Qc) (lower : string → string)
    (ws : list (string * Z * Z)) (words : nat) :
  TestDocument.test_words_with_indices ws words = true →
  Sorted Z.le
    (start <$> Effort.lexical_flags ACCOMPLISHMENT_WORDS EFFORT_WORDS
                 positive_result negative_result lower ws)
  ∧ ∀ f : Flag,
      f ∈ Effort.lexical_flags ACCOMPLISHMENT_WORDS EFFORT_WORDS
            positive_result negative_result lower ws →
      (start f ≤ stop f)%Z.
Proof.
  unfold TestDocument.test_words_with_indices. case_decide; [|done].
  rewrite bool_decide_eq_true, check_words_spec.
  intros (Hspan & Hstart & _). split.
  - apply lexical_flags_sorted. by apply Sorted_inv in Hstart as [? _].
  - intros f (w & Hw & Hf)%lexical_flags_elem.
    rewrite Forall_forall in Hspan. specialize (Hspan w Hw).
    destruct w as [[word b] e].
    by apply word_flags_elem in Hf as (-> & -> & _).
Qed.

(** ** The further properties on the sample letters *)

Lemma syntactic_flag_fields_witness :
  ∃ token ref : Spacy.Token,
    token ∈ Sample.twice_thorough_parse ∧ Spacy.dep_ token = "acomp"
    ∧ ref ∈ Spacy.children Sample.twice_thorough_parse (Spacy.head token)
    ∧ Effort.is_reference ref
    ∧ ((Spacy.text token ∈ Sample.ACCOMPLISHMENT_WORDS
        ∧ "The word 'thorough' tends to speak about effort more than accomplishment."
          = Effort.accomplishment_warning token
        ∧ "Try replacing with phrasing that emphasizes accomplishment." = EmptyString
        ∧ Sample.negative_result = Sample.positive_result)
       ∨ ((Spacy.text token ∉ Sample.ACCOMPLISHMENT_WORDS)
          ∧ Spacy.text token ∈ Sample.EFFORT_WORDS
          ∧ "The word 'thorough' tends to speak about effort more than accomplishment."
            = Effort.effort_warning token
          ∧ "Try replacing with phrasing that emphasizes accomplishment."
            = "Try replacing with phrasing that emphasizes accomplishment."
          ∧ Sample.negative_result = Sample.negative_result)).
Proof.
  apply (syntactic_flag_fields Sample.ACCOMPLISHMENT_WORDS Sample.EFFORT_WORDS
           Sample.positive_result Sample.negative_result
           Sample.twice_thorough_parse
           (mkFlag 0 35
              (mkIssue "Effort vs Accomplishment"
                 "The word 'thorough' tends to speak about effort more than accomplishment."
                 "Try replacing with phrasing that emphasizes accomplishment."
                 Sample.negative_result))).
  rewrite twice_thorough_flags. left.
Defined.

Lemma accomplishment_takes_precedence_witness :
  (Effort.flag_of_tuple
     (Effort.effort_tuple Sample.negative_result
        (Sample.tok "thorough" "ADJ" "acomp" 1 0 35))
   ∉ Effort.syntactic_flags ["thorough"] ["thorough"]
       Sample.positive_result Sample.negative_result Sample.twice_thorough_parse)
  ∧ Effort.lexical_effort_flag Sample.negative_result "thorough" 7 15
    ∈ Effort.lexical_flags ["thorough"] ["thorough"]
        Sample.positive_result Sample.negative_result Sample.lower
        (words_with_indices Sample.twice_thorough)
  ∧ Effort.lexical_accomplishment_flag Sample.positive_result "thorough" 7 15
    ∈ Effort.lexical_flags ["thorough"] ["thorough"]
        Sample.positive_result Sample.negative_result Sample.lower
        (words_with_indices Sample.twice_thorough).
Proof.
  apply accomplishment_takes_precedence; by_evaluation.
Defined.

Lemma no_complement_no_syntactic_flag_witness :
  Effort.syntactic_flags Sample.ACCOMPLISHMENT_WORDS Sample.EFFORT_WORDS
    Sample.positive_result Sample.negative_result
    (Sample.nlp (text Sample.thorough_worker)) = []
  ∧ flags (Sample.get_report Sample.thorough_worker)
    = Effort.lexical_flags Sample.ACCOMPLISHMENT_WORDS Sample.EFFORT_WORDS
        Sample.positive_result Sample.negative_result Sample.lower
        (words_with_indices Sample.thorough_worker)
  ∧ summary (Sample.get_report Sample.thorough_worker) = EmptyString.
Proof.
  apply (no_complement_no_syntactic_flag Sample.nlp Sample.ACCOMPLISHMENT_WORDS
           Sample.EFFORT_WORDS Sample.positive_result Sample.negative_result
           Sample.lower Sample.thorough_worker).
  apply (proj1 (Forall_forall (λ token, Spacy.dep_ token ≠ "acomp")
                  (Sample.nlp (text Sample.thorough_worker)))).
  by_evaluation.
Defined.

(** The letter of the witness has six tokens and one lexical flag. *)
Lemma thorough_worker_report :
  length (Sample.nlp (text Sample.thorough_worker)) = 6%nat
  ∧ flags (Sample.get_report Sample.thorough_worker)
    = [Effort.lexical_effort_flag Sample.negative_result "thorough" 9 17].
Proof. split; vm_compute; reflexivity. Qed.

Lemma sample_lists_lowercase (w : string) :
  w ∈ Sample.ACCOMPLISHMENT_WORDS ∨ w ∈ Sample.EFFORT_WORDS → Sample.lower w = w.
Proof.
  unfold Sample.ACCOMPLISHMENT_WORDS, Sample.EFFORT_WORDS.
  rewrite !elem_of_cons, !elem_of_nil.
  intros [[->|[]]|[->|[->|[]]]]; reflexivity.
Defined.

Lemma lowercase_lists_syntactic_implies_lexical_witness :
  ∃ f : Flag,
    f ∈ Effort.lexical_flags Sample.ACCOMPLISHMENT_WORDS Sample.EFFORT_WORDS
          Sample.positive_result Sample.negative_result Sample.lower
          (words_with_indices Sample.twice_thorough)
    ∧ start f = 26%Z ∧ stop f = 34%Z.
Proof.
  apply (lowercase_lists_syntactic_implies_lexical
           Sample.ACCOMPLISHMENT_WORDS Sample.EFFORT_WORDS
           Sample.positive_result Sample.negative_result Sample.lower
           (Sample.tok "thorough" "ADJ" "acomp" 5 0 35)).
  - exact sample_lists_lowercase.
  - discriminate.
  - by_evaluation.
Defined.

Lemma complement_is_own_candidate_witness :
  Effort.flag_of_tuple
    (Effort.accomplishment_tuple Sample.positive_result
       (Sample.tok "Groundbreaking" "PROPN" "acomp" 1 0 22))
  ∈ Effort.syntactic_flags ["Groundbreaking"] Sample.EFFORT_WORDS
      Sample.positive_result Sample.negative_result
      [ Sample.tok "Work" "NOUN" "nsubj" 1 0 22;
        Sample.tok "is" "AUX" "ROOT" 1 0 22;
        Sample.tok "Groundbreaking" "PROPN" "acomp" 1 0 22 ].
Proof.
  apply (complement_is_own_candidate ["Groundbreaking"] Sample.EFFORT_WORDS
           Sample.positive_result Sample.negative_result _ 2%nat
           (Sample.tok "Groundbreaking" "PROPN" "acomp" 1 0 22)).
  - reflexivity.
  - discriminate.
  - reflexivity.
  - by_evaluation.
  - by_evaluation.
Defined.

Lemma lexical_flags_in_document_order_witness :
  Sorted Z.le
    (start <$> Effort.lexical_flags Sample.ACCOMPLISHMENT_WORDS Sample.EFFORT_WORDS
                 Sample.positive_result Sample.negative_result Sample.lower
                 (words_with_indices Sample.twice_thorough)).
Proof.
  apply lexical_flags_in_document_order. by_evaluation.
Defined.

Lemma tested_document_lexical_flags_witness :
  Sorted Z.le
    (start <$> Effort.lexical_flags Sample.ACCOMPLISHMENT_WORDS Sample.EFFORT_WORDS
                 Sample.positive_result Sample.negative_result Sample.lower
                 (words_with_indices Sample.twice_thorough))
  ∧ ∀ f : Flag,
      f ∈ Effort.lexical_flags Sample.ACCOMPLISHMENT_WORDS Sample.EFFORT_WORDS
            Sample.positive_result Sample.negative_result Sample.lower
            (words_with_indices Sample.twice_thorough) →
      (start f ≤ stop f)%Z.
Proof.
  apply (tested_document_lexical_flags Sample.ACCOMPLISHMENT_WORDS
           Sample.EFFORT_WORDS Sample.positive_result Sample.negative_result
           Sample.lower (words_with_indices Sample.twice_thorough) 8).
  reflexivity.
Defined.

(** ** The flags of the second pass in the report of a sample letter *)

Lemma twice_thorough_pass_B :
  Effort.pass_B_flags Sample.nlp Sample.ACCOMPLISHMENT_WORDS Sample.EFFORT_WORDS
    Sample.positive_result Sample.negative_result Sample.lower
    Sample.twice_thorough
  = [mkFlag 0 35
       (mkIssue "Effort vs Accomplishment"
          "The word 'thorough' tends to speak about effort more than accomplishment."
          "Try replacing with phrasing that emphasizes accomplishment."
          Sample.negative_result)].
Proof. vm_compute. reflexivity. Qed.

Lemma syntactic_flag_span_witness :
  ∃ token ref : Spacy.Token,
    token ∈ Sample.nlp (text Sample.twice_thorough)
    ∧ Spacy.dep_ token = "acomp"
    ∧ ref ∈ Spacy.children (Sample.nlp (text Sample.twice_thorough)) (Spacy.head token)
    ∧ Effort.is_reference ref
    ∧ 0%Z = Spacy.start_char (Spacy.sent token)
    ∧ 35%Z = Spacy.end_char (Spacy.sent token)
    ∧ ((Spacy.text token ∈ Sample.ACCOMPLISHMENT_WORDS
        ∧ mkIssue "Effort vs Accomplishment"
            "The word 'thorough' tends to speak about effort more than accomplishment."
            "Try replacing with phrasing that emphasizes accomplishment."
            Sample.negative_result
          = mkIssue "Effort vs Accomplishment"
              (Effort.accomplishment_warning token)
              EmptyString Sample.positive_result)
       ∨ ((Spacy.text token ∉ Sample.ACCOMPLISHMENT_WORDS)
          ∧ Spacy.text token ∈ Sample.EFFORT_WORDS
          ∧ mkIssue "Effort vs Accomplishment"
              "The word 'thorough' tends to speak about effort more than accomplishment."
              "Try replacing with phrasing that emphasizes accomplishment."
              Sample.negative_result
            = mkIssue "Effort vs Accomplishment"
                (Effort.effort_warning token)
                Effort.effort_suggestion Sample.negative_result)).
Proof.
  apply (proj1 (syntactic_flag_span Sample.nlp Sample.ACCOMPLISHMENT_WORDS
                  Sample.EFFORT_WORDS Sample.positive_result
                  Sample.negative_result Sample.lower Sample.twice_thorough)
           (mkFlag 0 35
              (mkIssue "Effort vs Accomplishment"
                 "The word 'thorough' tends to speak about effort more than accomplishment."
                 "Try replacing with phrasing that emphasizes accomplishment."
                 Sample.negative_result))).
  rewrite twice_thorough_pass_B. left.
Defined.

Lemma syntactic_flags_deduplicated_witness :
  length
    (filter
       (λ f, Effort.tuple_of_flag f
             = Effort.effort_tuple Sample.negative_result
                 (Sample.tok "thorough" "ADJ" "acomp" 5 0 35))
       (Effort.pass_B_flags Sample.nlp Sample.ACCOMPLISHMENT_WORDS
          Sample.EFFORT_WORDS Sample.positive_result Sample.negative_result
          Sample.lower Sample.twice_thorough))
  = 1%nat.
Proof.
  apply (proj2 (proj2 (syntactic_flags_deduplicated Sample.nlp
                         Sample.ACCOMPLISHMENT_WORDS Sample.EFFORT_WORDS
                         Sample.positive_result Sample.negative_result
                         Sample.lower Sample.twice_thorough))
           (Sample.tok "thorough" "ADJ" "acomp" 5 0 35)
           (Sample.tok "he" "PRON" "nsubj" 5 0 35)).
  - by_evaluation.
  - reflexivity.
  - by_evaluation.
  - by_evaluation.
  - right. split; [by_evaluation|]. split; [by_evaluation|reflexivity].
Defined.

(** ** The keys and the pairs of quotes *)

Lemma quoted_empty_inv run : quoted EmptyString = quoted run → run = EmptyString.
Proof.
  unfold quoted. intros [= Heq]. destruct run as [|c [|d run]]; [done| |];
    rewrite ?append_cons in Heq; discriminate Heq.
Qed.

(** C2, as amended.  For every text in which no quotation is empty, the
    keys of [identify_publications] are exactly the substrings between
    paired double quotes, quotes included, and the value of a key is 0.25
    times the number of its occurrences; the agreement holds for such
    texts only.  On the text with the title Deep Learning Advances quoted
    twice the result is the single key, quotes included, with weight
    0.5. *)
Theorem identify_publications_pairs :
  (∀ doc : Document,
      Spec.no_empty_quotation (text doc)
      ↔ ∀ key : string,
          identify_publications doc !! key = Spec.publications_of_pairs doc key)
  ∧ identify_publications Sample.deep_learning
    = {[ quoted "Deep Learning Advances" := half ]}.
Proof.
  split; [|exact deep_learning_publications]. intros doc. split.
  - intros Hne key. rewrite identify_publications_lookup.
    unfold Spec.publications_of_pairs, Re.findall. by rewrite findall_pairs.
  - intros Hagree Hempty. specialize (Hagree (quoted EmptyString)).
    assert (is_Some (identify_publications doc !! quoted EmptyString)) as Hkey.
    { rewrite Hagree. unfold Spec.publications_of_pairs.
      apply list_elem_of_In, (count_occ_In String.eq_dec) in Hempty.
      destruct (count_occ String.eq_dec (Spec.paired_quotes (text doc))
                  (quoted EmptyString)); [lia|by eexists]. }
    apply findall_elem_of_lookup, findall_fuel_elem in Hkey
      as (run & _ & _ & Hrun & _ & Hq & _).
    by apply quoted_empty_inv in Hq.
Qed.

Lemma identify_publications_pairs_witness :
  identify_publications Sample.back_to_back !! quoted "b"
  = Spec.publications_of_pairs Sample.back_to_back (quoted "b")
  ∧ identify_publications Sample.deep_learning !! quoted "Deep Learning Advances"
    = Spec.publications_of_pairs Sample.deep_learning
        (quoted "Deep Learning Advances").
Proof.
  split.
  - apply (proj1 (proj1 identify_publications_pairs Sample.back_to_back)).
    by_evaluation.
  - apply (proj1 (proj1 identify_publications_pairs Sample.deep_learning)).
    by_evaluation.
Defined.

(** ** The two case conventions *)

Lemma fronted_no_syntactic_flag (A E : list string) (p n : Qc) (W : string) :
  W ∉ E → W ∉ A →
  Effort.syntactic_flags A E p n (Sample.fronted_parse W) = [].
Proof.
  intros HE HA. unfold Effort.syntactic_flags.
  assert ((Effort.syntactic_pass A E p n (Sample.fronted_parse W)).2 = ∅) as ->.
  { apply elem_of_equiv_empty_L. intros t Ht.
    apply syntactic_pass_set in Ht as (token & Hin & Hdep & Hcl & _).
    unfold Sample.fronted_parse in Hin.
    rewrite !elem_of_cons, elem_of_nil in Hin.
    destruct Hin as [->|[->|[->|[->|[]]]]]; try discriminate Hdep.
    unfold Effort.classified in Hcl. cbn [Sample.tok Spacy.text] in Hcl.
    rewrite !decide_False in Hcl by done. by apply elem_of_nil in Hcl. }
  by rewrite elements_empty.
Qed.

Lemma fronted_text_inj (a b : string) :
  text (Sample.fronted a) = text (Sample.fronted b) → a = b.
Proof. cbn [Sample.fronted text]. apply append_inj_r. Qed.

(** C10.  The first pass looks the lowercased word up, the second pass
    the surface text as it stands.  So for a word whose lowercase form is
    in a word list while the word as written is in none, there is a letter
    in which the word is an adjectival complement with a referenced
    subject, the first pass flags the word at its span, and the second
    pass puts no flag in the report; in the same letter written with the
    lowercase form, parsed alike, the second pass does flag the
    complement. *)
Theorem case_conventions_differ
    (ACCOMPLISHMENT_WORDS EFFORT_WORDS : list string)
    (positive_result negative_result : Qc) (lower : string → string)
    (W : string) :
  lower W ∈ EFFORT_WORDS ∨ lower W ∈ ACCOMPLISHMENT_WORDS →
  W ∉ EFFORT_WORDS → W ∉ ACCOMPLISHMENT_WORDS →
  ∃ (nlp : string → Spacy.Doc) (doc doc' : Document)
    (token token' : Spacy.Token) (b e : Z) (rest : string),
    text doc = W +:+ rest ∧ text doc' = lower W +:+ rest
    ∧ (W, b, e) ∈ words_with_indices doc
    ∧ token ∈ nlp (text doc)
    ∧ Spacy.text token = W ∧ Spacy.dep_ token = "acomp"
    ∧ (∃ ref : Spacy.Token,
          ref ∈ Spacy.children (nlp (text doc)) (Spacy.head token)
          ∧ Effort.is_reference ref)
    ∧ (∃ f : Flag,
          f ∈ Effort.lexical_flags ACCOMPLISHMENT_WORDS EFFORT_WORDS
                positive_result negative_result lower (words_with_indices doc)
          ∧ (f = Effort.lexical_effort_flag negative_result W b e
             ∨ f = Effort.lexical_accomplishment_flag positive_result W b e))
    ∧ Effort.pass_B_flags nlp ACCOMPLISHMENT_WORDS EFFORT_WORDS
        positive_result negative_result lower doc = []
    ∧ flags (Effort.get_report nlp ACCOMPLISHMENT_WORDS EFFORT_WORDS
               positive_result negative_result lower doc)
      = Effort.lexical_flags ACCOMPLISHMENT_WORDS EFFORT_WORDS
          positive_result negative_result lower (words_with_indices doc)
    ∧ token' ∈ nlp (text doc')
    ∧ Spacy.text token' = lower W
    ∧ Spacy.pos_ token' = Spacy.pos_ token
    ∧ Spacy.dep_ token' = Spacy.dep_ token
    ∧ Spacy.head token' = Spacy.head token
    ∧ (∃ ref : Spacy.Token,
          ref ∈ Spacy.children (nlp (text doc')) (Spacy.head token')
          ∧ Effort.is_reference ref)
    ∧ ∃ f : Flag,
        f ∈ Effort.pass_B_flags nlp ACCOMPLISHMENT_WORDS EFFORT_WORDS
              positive_result negative_result lower doc'
        ∧ start f = Spacy.start_char (Spacy.sent token')
        ∧ stop f = Spacy.end_char (Spacy.sent token')
        ∧ (description (issue f) = Effort.accomplishment_warning token'
           ∨ description (issue f) = Effort.effort_warning token').
Proof.
  intros Hlower HE HA.
  assert (lower W ≠ W) as Hcase.
  { intros Heq. rewrite Heq in Hlower. tauto. }
  pose (n := Z.of_nat (String.length W)).
  pose (nlp := Sample.fronted_nlp (lower W) W).
  assert (nlp (text (Sample.fronted W)) = Sample.fronted_parse W) as Hparse.
  { unfold nlp, Sample.fronted_nlp. by rewrite decide_True. }
  assert (nlp (text (Sample.fronted (lower W))) = Sample.fronted_parse (lower W))
    as Hparse'.
  { unfold nlp, Sample.fronted_nlp. rewrite decide_False; [done|].
    by intros ?%fronted_text_inj. }
  exists nlp, (Sample.fronted W), (Sample.fronted (lower W)).
  exists (Sample.tok W "ADJ" "acomp" 2 0 (n + 8)).
  exists (Sample.tok (lower W) "ADJ" "acomp" 2 0
            (Z.of_nat (String.length (lower W)) + 8)).
  exists 0%Z, n, " she is.".
  split; [reflexivity|]. split; [reflexivity|].
  split; [left|]. rewrite Hparse, Hparse'.
  split; [left|]. split; [reflexivity|]. split; [reflexivity|].
  split.
  { exists (Sample.tok "she" "PRON" "nsubj" 2 0 (n + 8)).
    split; [right; left|by_evaluation]. }
  split.
  { rewrite lexical_flags_flat_map. cbn [Sample.fronted words_with_indices flat_map].
    unfold Effort.word_flags at 1.
    destruct Hlower as [Hin|Hin].
    - exists (Effort.lexical_effort_flag negative_result W 0 n).
      split; [|by left].
      apply elem_of_app; left. apply elem_of_app; left.
      rewrite decide_True by done. left.
    - exists (Effort.lexical_accomplishment_flag positive_result W 0 n).
      split; [|by right].
      apply elem_of_app; left. apply elem_of_app; right.
      rewrite decide_True by done. left. }
  split.
  { rewrite pass_B_flags_syntactic, Hparse. by apply fronted_no_syntactic_flag. }
  split.
  { rewrite get_report_flags, Hparse, fronted_no_syntactic_flag by done.
    apply List.app_nil_r. }
  split; [left|]. do 4 (split; [reflexivity|]).
  assert (Sample.tok "she" "PRON" "nsubj" 2 0 (Z.of_nat (String.length (lower W)) + 8)
          ∈ Spacy.children (Sample.fronted_parse (lower W)) 2
          ∧ Effort.is_reference
              (Sample.tok "she" "PRON" "nsubj" 2 0
                 (Z.of_nat (String.length (lower W)) + 8))) as [Hchild Href].
  { split; [right; left|by_evaluation]. }
  split; [by eexists|].
  destruct (decide (lower W ∈ ACCOMPLISHMENT_WORDS)) as [HlA|HlA].
  - exists (Effort.flag_of_tuple
              (Effort.accomplishment_tuple positive_result
                 (Sample.tok (lower W) "ADJ" "acomp" 2 0
                    (Z.of_nat (String.length (lower W)) + 8)))).
    split; [|by repeat split; try left].
    apply pass_B_flags_elem. rewrite Hparse'.
    eexists _, _, _. split; [left|]. split; [reflexivity|].
    split; [exact Hchild|]. split; [exact Href|]. split; [|reflexivity].
    apply classified_intro. by left.
  - assert (lower W ∈ EFFORT_WORDS) as HlE by tauto.
    exists (Effort.flag_of_tuple
              (Effort.effort_tuple negative_result
                 (Sample.tok (lower W) "ADJ" "acomp" 2 0
                    (Z.of_nat (String.length (lower W)) + 8)))).
    split; [|by repeat split; try right].
    apply pass_B_flags_elem. rewrite Hparse'.
    eexists _, _, _. split; [left|]. split; [reflexivity|].
    split; [exact Hchild|]. split; [exact Href|]. split; [|reflexivity].
    apply classified_intro. by right.
Qed.

Lemma case_conventions_differ_witness :
  ∃ (nlp : string → Spacy.Doc) (doc doc' : Document)
    (token token' : Spacy.Token) (b e : Z) (rest : string),
    text doc = "Thorough" +:+ rest ∧ text doc' = Sample.lower "Thorough" +:+ rest
    ∧ ("Thorough", b, e) ∈ words_with_indices doc
    ∧ token ∈ nlp (text doc)
    ∧ Spacy.text token = "Thorough" ∧ Spacy.dep_ token = "acomp"
    ∧ (∃ ref : Spacy.Token,
          ref ∈ Spacy.children (nlp (text doc)) (Spacy.head token)
          ∧ Effort.is_reference ref)
    ∧ (∃ f : Flag,
          f ∈ Effort.lexical_flags Sample.ACCOMPLISHMENT_WORDS Sample.EFFORT_WORDS
                Sample.positive_result Sample.negative_result Sample.lower
                (words_with_indices doc)
          ∧ (f = Effort.lexical_effort_flag Sample.negative_result "Thorough" b e
             ∨ f = Effort.lexical_accomplishment_flag Sample.positive_result
                     "Thorough" b e))
    ∧ Effort.pass_B_flags nlp Sample.ACCOMPLISHMENT_WORDS Sample.EFFORT_WORDS
        Sample.positive_result Sample.negative_result Sample.lower doc = []
    ∧ flags (Effort.get_report nlp Sample.ACCOMPLISHMENT_WORDS Sample.EFFORT_WORDS
               Sample.positive_result Sample.negative_result Sample.lower doc)
      = Effort.lexical_flags Sample.ACCOMPLISHMENT_WORDS Sample.EFFORT_WORDS
          Sample.positive_result Sample.negative_result Sample.lower
          (words_with_indices doc)
    ∧ token' ∈ nlp (text doc')
    ∧ Spacy.text token' = Sample.lower "Thorough"
    ∧ Spacy.pos_ token' = Spacy.pos_ token
    ∧ Spacy.dep_ token' = Spacy.dep_ token
    ∧ Spacy.head token' = Spacy.head token
    ∧ (∃ ref : Spacy.Token,
          ref ∈ Spacy.children (nlp (text doc')) (Spacy.head token')
          ∧ Effort.is_reference ref)
    ∧ ∃ f : Flag,
        f ∈ Effort.pass_B_flags nlp Sample.ACCOMPLISHMENT_WORDS Sample.EFFORT_WORDS
              Sample.positive_result Sample.negative_result Sample.lower doc'
        ∧ start f = Spacy.start_char (Spacy.sent token')
        ∧ stop f = Spacy.end_char (Spacy.sent token')
        ∧ (description (issue f) = Effort.accomplishment_warning token'
           ∨ description (issue f) = Effort.effort_warning token').
Proof.
  apply (case_conventions_differ Sample.ACCOMPLISHMENT_WORDS Sample.EFFORT_WORDS
           Sample.positive_result Sample.negative_result Sample.lower "Thorough").
  - left. by_evaluation.
  - by_evaluation.
  - by_evaluation.
Defined.
